(** * Federated learning: aggregator round state machine, node actor and
    parameter codec (src/server.rs, src/node.rs, src/model.rs,
    src/messages.rs).

    The f32 arithmetic of the Rust code is abstracted by the class [F32]
    (addition, division, and the [usize as f32] cast).  Concrete checks
    instantiate it with exact rationals, on inputs whose f32 results are
    exact. *)

From Stdlib Require Import QArith.
From stdpp Require Import base list strings.

(** ** Numbers *)

Class F32 (F : Type) := {
  f32_add : F -> F -> F;      (* [a + b] *)
  f32_div : F -> F -> F;      (* [a / b] *)
  f32_of_usize : nat -> F     (* [n as f32] *)
}.

(** Rust's [Result<T, E>]. *)
Inductive result (A E : Type) : Type :=
| Ok (a : A)
| Err (e : E).
Arguments Ok {A E} a.
Arguments Err {A E} e.

(** [for i in 0..n { body }]: the loop over a range, threading the state
    the body mutates. *)
Definition for_range {A} (n : nat) (body : nat -> A -> A) (a : A) : A :=
  foldl (fun acc i => body i acc) a (seq 0 n).

(** ** ndarray arrays (model.rs) *)

(** An [Array2<f32>] in standard (row-major) layout: its shape and its
    elements in logical order, which is the order of [iter()]. *)
Record Array2 (F : Type) := mkArray2 {
  nrows : nat;
  ncols : nat;
  adata : list F
}.
Arguments mkArray2 {F} nrows ncols adata.
Arguments nrows {F} _.
Arguments ncols {F} _.
Arguments adata {F} _.

(** [a.len()] is the product of the shape. *)
Definition a2_len {F} (a : Array2 F) : nat := nrows a * ncols a.

(** [a[[i, j]] = x] *)
Definition a2_set {F} (a : Array2 F) (i j : nat) (x : F) : Array2 F :=
  mkArray2 (nrows a) (ncols a) (<[i * ncols a + j := x]> (adata a)).

Definition a2_wf {F} (a : Array2 F) : Prop := length (adata a) = a2_len a.

(** ** SimpleModel (model.rs) *)

Record SimpleModel (F : Type) := mkModel {
  w1 : Array2 F;
  b1 : list F;
  w2 : Array2 F;
  b2 : list F;
  learning_rate : F
}.
Arguments mkModel {F} w1 b1 w2 b2 learning_rate.
Arguments w1 {F} _.
Arguments b1 {F} _.
Arguments w2 {F} _.
Arguments b2 {F} _.
Arguments learning_rate {F} _.

Definition model_wf {F} (m : SimpleModel F) : Prop := a2_wf (w1 m) /\ a2_wf (w2 m).

Section Codec.
Context {F : Type}.

(** [SimpleModel::to_params_vec] *)
Definition to_params_vec (m : SimpleModel F) : list F :=
  adata (w1 m) ++ b1 m ++ adata (w2 m) ++ b2 m.

Definition total_params (m : SimpleModel F) : nat :=
  a2_len (w1 m) + length (b1 m) + a2_len (w2 m) + length (b2 m).

(** Body of the nested loop over a weight matrix in [from_params_vec]:
    [let idx = i * cols + j;
     if idx < size && offset + idx < params.len() { w[[i, j]] = params[offset + idx]; }].
    Under the guard [params !! (offset + idx)] is [Some]. *)
Definition write_w (params : list F) (offset size cols i j : nat) (w : Array2 F) : Array2 F :=
  let idx := i * cols + j in
  if (idx <? size) && (offset + idx <? length params) then
    match params !! (offset + idx) with
    | Some x => a2_set w i j x
    | None => w
    end
  else w.

(** Body of the loop over a bias vector:
    [if offset + i < params.len() { b[i] = params[offset + i]; }] *)
Definition write_b (params : list F) (offset i : nat) (b : list F) : list F :=
  if offset + i <? length params then
    match params !! (offset + i) with
    | Some x => <[i := x]> b
    | None => b
    end
  else b.

Definition write_matrix (params : list F) (offset : nat) (w : Array2 F) : Array2 F :=
  let size := a2_len w in
  let rows := nrows w in
  let cols := ncols w in
  for_range rows (fun i w' => for_range cols (fun j => write_w params offset size cols i j) w') w.

Definition write_vector (params : list F) (offset : nat) (b : list F) : list F :=
  for_range (length b) (write_b params offset) b.

(** [SimpleModel::from_params_vec]: four segments, in the order of
    [to_params_vec], each write guarded by the bounds of [params]. *)
Definition from_params_vec (m : SimpleModel F) (params : list F)
  : result unit string * SimpleModel F :=
  let offset := 0 in
  let w1' := write_matrix params offset (w1 m) in
  let offset := offset + a2_len (w1 m) in
  let b1' := write_vector params offset (b1 m) in
  let offset := offset + length (b1 m) in
  let w2' := write_matrix params offset (w2 m) in
  let offset := offset + a2_len (w2 m) in
  let b2' := write_vector params offset (b2 m) in
  (Ok tt, mkModel w1' b1' w2' b2' (learning_rate m)).

(** The pointwise effect of a guarded segment write: position [k] takes
    [params[offset + k]] when that exists, and keeps its value otherwise. *)
Definition seg_write (params : list F) (offset : nat) (l : list F) : list F :=
  imap (fun k x => default x (params !! (offset + k))) l.

End Codec.

(** Two models with the same layer shapes. *)
Definition same_shape {F} (m m' : SimpleModel F) : Prop :=
  nrows (w1 m') = nrows (w1 m) /\ ncols (w1 m') = ncols (w1 m) /\
  nrows (w2 m') = nrows (w2 m) /\ ncols (w2 m') = ncols (w2 m) /\
  length (b1 m') = length (b1 m) /\ length (b2 m') = length (b2 m).

(** Exact rationals as a model of f32 on inputs whose results are exact. *)
#[global] Instance F32_Q : F32 Q := {
  f32_add x y := Qred (Qplus x y);
  f32_div x y := Qred (Qdiv x y);
  f32_of_usize n := Qred (inject_Z (Z.of_nat n))
}.

Definition q (z : Z) : Q := Qmake z 1.

(** A small model: [w1] is 2x1, [b1] has 1 entry, [w2] is 1x1, [b2] has 1
    entry, 5 parameters in all. *)
Definition small_model : SimpleModel Q :=
  mkModel (mkArray2 2 1 [q 1; q 2]) [q 3] (mkArray2 1 1 [q 4]) [q 5] (Qmake 1 100).

(** A model that takes 10 input features: [w1] is 10x1, [w2] is 1x1. *)
Definition model10 : SimpleModel Q :=
  mkModel (mkArray2 10 1 (repeat (q 0) 10)) [q 0] (mkArray2 1 1 [q 1]) [q 0] (Qmake 1 100).

(** ** Messages (messages.rs) *)

Inductive NodeMessage (F : Type) : Type :=
| Train (data labels : list F)
| Predict (data : list F)
| UpdateModel (params : list F)
| RegisterNode (addr : string).
Arguments Train {F} data labels.
Arguments Predict {F} data.
Arguments UpdateModel {F} params.
Arguments RegisterNode {F} addr.

Record ServerMessage (F : Type) := mkServerMessage {
  node_addr : string;
  params : list F
}.
Arguments mkServerMessage {F} node_addr params.
Arguments node_addr {F} _.
Arguments params {F} _.

(** [NodeStatus] (network.rs), the entries of [GetNodesRequest]'s reply. *)
Record NodeStatus := mkNodeStatus {
  address : string;
  status : string
}.

(** The one outward effect of the handlers: a detached, unacknowledged
    [client.post(url).send_json(msg)]. *)
Inductive effect (F : Type) : Type :=
| Send (url : string) (msg : NodeMessage F).
Arguments Send {F} url msg.

(** ** CentralServer (server.rs) *)

Record CentralServer (F : Type) := mkServer {
  nodes : list string;
  aggregated_params : option (list F);
  model : SimpleModel F;
  updates_received : nat;
  total_nodes : nat
}.
Arguments mkServer {F} nodes aggregated_params model updates_received total_nodes.
Arguments nodes {F} _.
Arguments aggregated_params {F} _.
Arguments model {F} _.
Arguments updates_received {F} _.
Arguments total_nodes {F} _.

Section Server.
Context {F : Type} `{!F32 F}.
Implicit Types (s : CentralServer F).

(** [CentralServer::new]; the model is [build_model()], randomly
    initialised, so it is a parameter here. *)
Definition server_new (m0 : SimpleModel F) (total : nat) : CentralServer F :=
  mkServer [] None m0 0 total.

Definition set_nodes s ns : CentralServer F :=
  mkServer ns (aggregated_params s) (model s) (updates_received s) (total_nodes s).
Definition set_aggregated s a : CentralServer F :=
  mkServer (nodes s) a (model s) (updates_received s) (total_nodes s).
Definition set_model s m : CentralServer F :=
  mkServer (nodes s) (aggregated_params s) m (updates_received s) (total_nodes s).
Definition set_received s n : CentralServer F :=
  mkServer (nodes s) (aggregated_params s) (model s) n (total_nodes s).

(** [self.nodes.contains(&addr)] *)
Definition contains (ns : list string) (addr : string) : bool :=
  existsb (String.eqb addr) ns.

(** [if !self.nodes.contains(&addr) { self.nodes.push(addr) }] *)
Definition register (ns : list string) (addr : string) : list string :=
  if contains ns addr then ns else ns ++ [addr].

(** [for (a, b) in aggregated.iter_mut().zip(msg.params.iter()) { *a += *b; }] *)
Fixpoint zip_add (a b : list F) : list F :=
  match a, b with
  | x :: a', y :: b' => f32_add x y :: zip_add a' b'
  | _, _ => a
  end.

(** [update_model]: [from_params_vec] under the model's lock.  The lock is
    never poisoned at the server: nothing panics while holding it. *)
Definition update_model (m : SimpleModel F) (ps : list F) : result unit string * SimpleModel F :=
  from_params_vec m ps.

(** The guard of the broadcast loop:
    [node != "ping" && !node.is_empty() && node != "direct"] *)
Definition is_broadcast_target (node : string) : bool :=
  negb (String.eqb node "ping") && negb (String.eqb node "") && negb (String.eqb node "direct").

(** The sends spawned by the broadcast loop, one per guarded node. *)
Definition broadcast (ns : list string) (msg : NodeMessage F) : list (effect F) :=
  flat_map (fun node =>
    if is_broadcast_target node then [Send (String.append node "/message") msg] else []) ns.

(** [CentralServer::aggregate_and_broadcast]: returns the result, the
    state after the call, and the spawned sends. *)
Definition aggregate_and_broadcast s : result unit string * CentralServer F * list (effect F) :=
  match aggregated_params s with
  | Some aggregated =>
      let aggregated := map (fun x => f32_div x (f32_of_usize (total_nodes s))) aggregated in
      let s := set_aggregated s (Some aggregated) in
      match update_model (model s) aggregated with
      | (Ok _, m') =>
          let s := set_model s m' in
          (Ok tt, s, broadcast (nodes s) (UpdateModel aggregated))
      | (Err e, _) => (Err (String.append "Failed to update central model: " e), s, [])
      end
  | None => (Err "No parameters to aggregate", s, [])
  end.

(** The part of [Handler<ServerMessage>] before the round check: register
    the sender, count the update, fold it into the accumulator. *)
Definition accumulate s (msg : ServerMessage F) : CentralServer F :=
  let s := set_nodes s (register (nodes s) (node_addr msg)) in
  let s := set_received s (S (updates_received s)) in
  match aggregated_params s with
  | Some aggregated => set_aggregated s (Some (zip_add aggregated (params msg)))
  | None => set_aggregated s (Some (params msg))
  end.

(** [Handler<ServerMessage> for CentralServer]; the flag records whether
    the round closed (aggregation succeeded and the state was reset). *)
Definition handle_server_message s (msg : ServerMessage F)
  : result unit string * CentralServer F * list (effect F) * bool :=
  let s := accumulate s msg in
  if total_nodes s <=? updates_received s then
    match aggregate_and_broadcast s with
    | (Ok _, s, effs) =>
        let s := set_received s 0 in
        let s := set_aggregated s None in
        (Ok tt, s, effs, true)
    | (Err _, s, effs) => (Ok tt, s, effs, false)   (* logged *)
    end
  else (Ok tt, s, [], false).

(** [Handler<NodeMessage> for CentralServer] *)
Definition server_handle_node_message s (msg : NodeMessage F)
  : result unit string * CentralServer F * list (effect F) * bool :=
  match msg with
  | RegisterNode addr => (Ok tt, set_nodes s (register (nodes s) addr), [], false)
  | UpdateModel ps => handle_server_message s (mkServerMessage "direct" ps)
  | _ => (Ok tt, s, [], false)
  end.

(** [Handler<GetNodesRequest> for CentralServer] *)
Definition get_nodes s : list NodeStatus :=
  map (fun addr => mkNodeStatus addr "active")
      (List.filter (fun addr => negb (String.eqb addr "ping")) (nodes s)).

(** A run of parameter updates: the closure flags, in order, and the
    final state. *)
Fixpoint run_updates s (msgs : list (ServerMessage F)) : list bool * CentralServer F :=
  match msgs with
  | [] => ([], s)
  | msg :: rest =>
      let '(_, s', _, closed) := handle_server_message s msg in
      let '(flags, s'') := run_updates s' rest in
      (closed :: flags, s'')
  end.

(** The averaged vector of a round. *)
Definition averaged s (a : list F) : list F :=
  map (fun x => f32_div x (f32_of_usize (total_nodes s))) a.

End Server.

(** ** NodeActor (node.rs) *)

(** A handler either returns or panics (an [expect] that fails, or an
    ndarray operation on incompatible shapes). *)
Inductive outcome (A : Type) : Type :=
| Done (a : A)
| Panic (msg : string).
Arguments Done {A} a.
Arguments Panic {A} msg.

Record NodeActor (F : Type) := mkNode {
  nmodel : SimpleModel F;
  server_addr : string;
  self_addr : string    (* the field [node_addr] *)
}.
Arguments mkNode {F} nmodel server_addr self_addr.
Arguments nmodel {F} _.
Arguments server_addr {F} _.
Arguments self_addr {F} _.

Section Node.
Context {F : Type}.

(** [Array2::from_shape_vec((rows, cols), v)]: fails unless the vector has
    exactly [rows * cols] elements. *)
Definition from_shape_vec (rows cols : nat) (v : list F) : result (Array2 F) string :=
  if length v =? rows * cols then Ok (mkArray2 rows cols v)
  else Err "ShapeError/IncompatibleShape: incompatible shapes".

(** [prepare_data] (model.rs): both reshapes end in [.expect(..)]. *)
Definition prepare_data (data labels : list F) : outcome (Array2 F * Array2 F) :=
  let batch_size := length labels in
  let features := 10 in
  match from_shape_vec batch_size features data with
  | Err _ => Panic "Failed to reshape data"
  | Ok x =>
      match from_shape_vec batch_size 1 labels with
      | Err _ => Panic "Failed to reshape labels"
      | Ok y => Done (x, y)
      end
  end.

(** [model.train(&x, &y, epochs)] and [model.forward(&x)], the learning
    algorithm itself, are external collaborators of the protocol, run under
    the model's lock.  Each either returns (the trained model, the
    predictions) or panics: ndarray's [dot] and broadcasting arithmetic
    panic on incompatible shapes, e.g. when [w1] does not have as many rows
    as [x] has columns.  The handler is taken over any such pair. *)
Variable train : SimpleModel F -> Array2 F -> Array2 F -> nat -> outcome (SimpleModel F).
Variable forward : SimpleModel F -> Array2 F -> outcome (Array2 F).

Definition set_nmodel (n : NodeActor F) (m : SimpleModel F) : NodeActor F :=
  mkNode m (server_addr n) (self_addr n).

(** [Handler<NodeMessage> for NodeActor].  A panic ends the handler (and
    the actor) where it happens, so a later lock of the model is not
    modelled; the lock is otherwise never poisoned (see [update_model]). *)
Definition node_handle (n : NodeActor F) (msg : NodeMessage F)
  : outcome (result unit string * NodeActor F * list (effect F)) :=
  match msg with
  | Train data labels =>
      match prepare_data data labels with
      | Panic e => Panic e
      | Done (x, y) =>
          match train (nmodel n) x y 10 with
          | Panic e => Panic e
          | Done m' =>
              let n := set_nmodel n m' in
              let ps := to_params_vec (nmodel n) in
              Done (Ok tt, n, [Send (String.append (server_addr n) "/message") (UpdateModel ps)])
          end
      end
  | Predict data =>
      let batch_size := length data / 10 in
      match from_shape_vec batch_size 10 data with
      | Err e => Done (Err (String.append "Failed to reshape data: " e), n, [])
      | Ok x =>
          match forward (nmodel n) x with
          | Panic e => Panic e
          | Done _ => Done (Ok tt, n, [])   (* the prediction is only logged *)
          end
      end
  | UpdateModel ps =>
      match from_params_vec (nmodel n) ps with
      | (Ok _, m') => Done (Ok tt, set_nmodel n m', [])
      | (Err e, m') => Done (Err (String.append "Failed to update model: " e), set_nmodel n m', [])
      end
  | RegisterNode _ => Done (Ok tt, n, [])
  end.

End Node.

(** A stand-in for [model.train] with ndarray's shape check of [x.dot(&w1)]:
    it panics unless [x] has as many columns as [w1] has rows, and
    otherwise leaves the model as it is. *)
Definition dot_checked_train (m : SimpleModel Q) (x y : Array2 Q) (epochs : nat)
  : outcome (SimpleModel Q) :=
  if ncols x =? nrows (w1 m) then Done m
  else Panic "ndarray: inputs are not compatible for matrix multiplication".

(** The matching stand-in for [model.forward]. *)
Definition dot_checked_forward (m : SimpleModel Q) (x : Array2 Q) : outcome (Array2 Q) :=
  if ncols x =? nrows (w1 m) then Done (mkArray2 (nrows x) 1 (repeat (q 0) (nrows x)))
  else Panic "ndarray: inputs are not compatible for matrix multiplication".

(** ** Queries, probes and HTTP replies (server.rs, node.rs, network.rs) *)

Section Queries.
Context {F : Type} `{!F32 F}.

(** [Handler<GetModelParams> for CentralServer]: [extract_params] under
    the model's lock; no state change. *)
Definition get_model_params (s : CentralServer F) : result (list F) string :=
  Ok (to_params_vec (model s)).

(** [get_server_status] (network.rs): the liveness probe sends
    [RegisterNode { addr: "ping" }] to the aggregator. *)
Definition get_server_status (s : CentralServer F)
  : result unit string * CentralServer F * list (effect F) * bool :=
  server_handle_node_message s (RegisterNode "ping").


(** The inputs that reach the aggregator actor: a [NodeMessage] (from
    [/message] or the [/status] probe) or a [ServerMessage] handled
    directly.  [GetNodesRequest] and [GetModelParams] leave the state as
    it is and are not listed. *)
Inductive ServerInput : Type :=
| NodeInput (m : NodeMessage F)
| UpdateInput (m : ServerMessage F).

(** One input, handled by its [Handler]. *)
Definition server_input_step (s : CentralServer F) (i : ServerInput)
  : result unit string * CentralServer F * list (effect F) * bool :=
  match i with
  | NodeInput m => server_handle_node_message s m
  | UpdateInput m => handle_server_message s m
  end.

(** The actor handling its inputs in mailbox order: the replies, all the
    sends, in order, and the final state. *)
Fixpoint run_server (s : CentralServer F) (inputs : list ServerInput)
  : list (result unit string) * list (effect F) * CentralServer F :=
  match inputs with
  | [] => ([], [], s)
  | i :: rest =>
      let '(r, s', effs, _) := server_input_step s i in
      let '(rs, effs', s'') := run_server s' rest in
      (r :: rs, effs ++ effs', s'')
  end.

(** Two aggregator states that agree on everything but ["ping"] entries of
    the registry. *)
Definition same_but_ping (s t : CentralServer F) : Prop :=
  List.filter (fun a => negb (String.eqb a "ping")) (nodes s) =
  List.filter (fun a => negb (String.eqb a "ping")) (nodes t) /\
  aggregated_params s = aggregated_params t /\ model s = model t /\
  updates_received s = updates_received t /\ total_nodes s = total_nodes t.

(** The round bookkeeping kept between messages: the count stays below
    [total_nodes], and the accumulator is absent exactly when the count is 0. *)
Definition round_inv (s : CentralServer F) : Prop :=
  updates_received s < total_nodes s /\
  (aggregated_params s = None <-> updates_received s = 0).

(** The accumulator of a round fed the vectors [ps]: the first seeds it,
    the others are added with [zip_add]. *)
Definition round_sum (ps : list (list F)) : list F :=
  match ps with
  | [] => []
  | p :: ps => foldl zip_add p ps
  end.

End Queries.
Arguments ServerInput F : clear implicits.
Arguments NodeInput {F} m.
Arguments UpdateInput {F} m.

(** The JSON reply of [receive_server_message] / [receive_node_message]
    to a handler result (an actor mailbox error is not modelled). *)
Inductive http_reply : Type :=
| Reply (code : nat) (status : string) (message : option string).

Definition message_reply (r : result unit string) : http_reply :=
  match r with
  | Ok _ => Reply 200 "success" None
  | Err e => Reply 500 "error" (Some e)
  end.

(** ** Random initialisation and synthetic data (model.rs)

    [rand::thread_rng()] is modelled as the sequence of its draws:
    [uniform lo hi k] is the [k]-th value drawn by [gen_range(lo..hi)].
    The float literals and the Xavier bound [(6.0 / n as f32).sqrt()] are
    given as [Variable]s; the properties below hold for any values. *)

Section Init.
Context {F : Type} `{!F32 F}.
Variable zero : F.                       (* [0.0] *)
Variable one : F.                        (* [1.0] *)
Variable lr0 : F.                        (* [0.01] *)
Variable neg : F -> F.                   (* [-x] *)
Variable xavier_bound : nat -> F.        (* [(6.0 / n as f32).sqrt()] *)
Variable uniform : F -> F -> nat -> F.   (* the [k]-th [gen_range(lo..hi)] *)

(** [Array2::zeros((r, c))] and [Array1::zeros(n)] *)
Definition a2_zeros (r c : nat) : Array2 F := mkArray2 r c (repeat zero (r * c)).

(** [for i in 0..rows { for j in 0..cols { w[[i, j]] = rng.gen_range(-b..b); } }],
    threading the draw counter. *)
Definition init_weights (rows cols : nat) (bound : F) (w : Array2 F) (k : nat)
  : Array2 F * nat :=
  for_range rows (fun i wk =>
    for_range cols (fun j '(w, k) => (a2_set w i j (uniform (neg bound) bound k), S k)) wk)
    (w, k).

(** [SimpleModel::new] *)
Definition simple_model_new (input_size hidden_size output_size : nat) : SimpleModel F :=
  let w1_bound := xavier_bound (input_size + hidden_size) in
  let w2_bound := xavier_bound (hidden_size + output_size) in
  let w1 := a2_zeros input_size hidden_size in
  let w2 := a2_zeros hidden_size output_size in
  let b1 := repeat zero hidden_size in
  let b2 := repeat zero output_size in
  let '(w1, k) := init_weights input_size hidden_size w1_bound w1 0 in
  let '(w2, _) := init_weights hidden_size output_size w2_bound w2 k in
  mkModel w1 b1 w2 b2 lr0.

(** [build_model]: [SimpleModel::new(10, 64, 1)] *)
Definition build_model : SimpleModel F := simple_model_new 10 64 1.

(** [NodeActor::new(server_addr, node_addr)]: a node starts from [build_model()]. *)
Definition node_actor_new (saddr naddr : string) : NodeActor F :=
  mkNode build_model saddr naddr.

(** [generate_data]: per sample, 10 draws in [-1.0..1.0) and the label
    [x[0] + x[1] + x[2]] of the last 10 pushed values; the indexing would
    panic on a short slice. *)
Definition generate_data (samples : nat) : outcome (list F * list F) :=
  let '(r, _) :=
    for_range samples (fun _ '(r, k) =>
      match r with
      | Panic e => (Panic e, k)
      | Done (data, labels) =>
          let '(data, k) :=
            for_range 10 (fun _ '(d, k) => (d ++ [uniform (neg one) one k], S k)) (data, k) in
          let x := drop (length data - 10) data in
          match x !! 0, x !! 1, x !! 2 with
          | Some x0, Some x1, Some x2 => (Done (data, labels ++ [f32_add (f32_add x0 x1) x2]), k)
          | _, _, _ => (Panic "index out of bounds", k)
          end
      end) (Done ([], []), 0) in
  r.

End Init.

(** ** Loop lemmas *)

Lemma for_range_S {A} (n : nat) (f : nat -> A -> A) (a : A) :
  for_range (S n) f a = f n (for_range n f a).
Proof. unfold for_range. by rewrite seq_S, foldl_app. Qed.

Lemma for_range_O {A} (f : nat -> A -> A) (a : A) : for_range 0 f a = a.
Proof. reflexivity. Qed.

Section Loops.
Context {A B : Type}.

Lemma for_range_add (k c : nat) (g : nat -> A -> A) (a : A) :
  for_range (k + c) g a = for_range c (fun j => g (k + j)) (for_range k g a).
Proof.
  induction c as [|c IH].
  - by rewrite Nat.add_0_r.
  - rewrite <- plus_n_Sm, !for_range_S. by rewrite IH.
Qed.

(** Two nested loops [for i in 0..r { for j in 0..c { .. i * c + j .. } }]
    visit the flat indices [0 .. r * c] in order. *)
Lemma for_range_nested (r c : nat) (g : nat -> A -> A) (a : A) :
  for_range r (fun i a' => for_range c (fun j => g (i * c + j)) a') a
  = for_range (r * c) g a.
Proof.
  induction r as [|r IH]; [done|].
  rewrite for_range_S, IH.
  replace (S r * c) with (r * c + c) by lia.
  by rewrite for_range_add.
Qed.

Lemma for_range_ext (n : nat) (f g : nat -> A -> A) (a : A) :
  (forall k x, k < n -> f k x = g k x) -> for_range n f a = for_range n g a.
Proof.
  induction n as [|n IH]; intros Hfg; [done|].
  rewrite !for_range_S, IH by (intros; apply Hfg; lia).
  apply Hfg; lia.
Qed.

(** A loop over a state [A] simulated by a loop over a view [B] of it,
    as long as an invariant [P] of the state is kept. *)
Lemma for_range_sim (P : A -> Prop) (v : A -> B) (n : nat)
    (f : nat -> A -> A) (f' : nat -> B -> B) (a : A) :
  (forall k x, k < n -> P x -> P (f k x)) ->
  (forall k x, k < n -> P x -> v (f k x) = f' k (v x)) ->
  P a ->
  P (for_range n f a) /\ v (for_range n f a) = for_range n f' (v a).
Proof.
  intros Hinv Hsim Ha. induction n as [|n IH]; [done|].
  rewrite !for_range_S.
  destruct IH as [HP Hv];
    [intros k x Hk Hx; apply Hinv; [lia|done] | intros k x Hk Hx; apply Hsim; [lia|done] |].
  split; [apply Hinv; [lia|done] |].
  rewrite Hsim; [by rewrite Hv | lia | done].
Qed.

End Loops.

(** ** Codec lemmas *)

Section CodecLemmas.
Context {F : Type}.
Implicit Types (p l : list F) (w : Array2 F) (m : SimpleModel F).

(** The guarded write at flat index [k] of a segment. *)
Lemma write_b_lookup p off k l :
  write_b p off k l =
  match p !! (off + k) with Some x => <[k := x]> l | None => l end.
Proof.
  unfold write_b. destruct (Nat.ltb_spec (off + k) (length p)) as [Hlt|Hge].
  - done.
  - by rewrite lookup_ge_None_2 by lia.
Qed.

Lemma for_range_write_b p off n l :
  n <= length l ->
  for_range n (write_b p off) l =
  imap (fun k x => if k <? n then default x (p !! (off + k)) else x) l.
Proof.
  induction n as [|n IH]; intros Hn.
  - rewrite for_range_O. apply list_eq. intros i.
    rewrite list_lookup_imap. by destruct (l !! i).
  - rewrite for_range_S, IH by lia. rewrite write_b_lookup.
    destruct (p !! (off + n)) as [x|] eqn:Hx.
    + apply list_eq. intros i. destruct (decide (i = n)) as [->|Hne].
      * rewrite list_lookup_insert_eq by (rewrite length_imap; lia).
        rewrite list_lookup_imap.
        destruct (lookup_lt_is_Some_2 l n) as [y Hy]; [lia|].
        rewrite Hy. simpl.
        destruct (Nat.ltb_spec n (S n)); [|lia]. by rewrite Hx.
      * rewrite list_lookup_insert_ne by congruence.
        rewrite !list_lookup_imap. destruct (l !! i); [|done]. simpl.
        destruct (Nat.ltb_spec i n), (Nat.ltb_spec i (S n)); try done; lia.
    + apply imap_ext. intros i y _.
      destruct (Nat.ltb_spec i n), (Nat.ltb_spec i (S n)); try done; try lia.
      assert (i = n) as -> by lia. by rewrite Hx.
Qed.

Lemma write_vector_seg p off l :
  write_vector p off l = seg_write p off l.
Proof.
  unfold write_vector, seg_write. rewrite for_range_write_b by done.
  apply imap_ext. intros i x Hi. apply lookup_lt_Some in Hi.
  by destruct (Nat.ltb_spec i (length l)); [|lia].
Qed.

Lemma write_matrix_seg p off w :
  a2_wf w ->
  write_matrix p off w = mkArray2 (nrows w) (ncols w) (seg_write p off (adata w)).
Proof.
  intros Hwf. unfold write_matrix.
  set (size := a2_len w). set (rows := nrows w). set (cols := ncols w).
  set (P := fun w' : Array2 F => nrows w' = rows /\ ncols w' = cols).
  assert (Hinner : forall i w', i < rows -> P w' ->
    P (for_range cols (fun j => write_w p off size cols i j) w') /\
    adata (for_range cols (fun j => write_w p off size cols i j) w') =
    for_range cols (fun j => write_b p off (i * cols + j)) (adata w')).
  { intros i w' Hi Hw'. apply for_range_sim; [| |done].
    - intros k x _ [Hr Hc]. unfold write_w.
      destruct (_ && _); [|done]. by destruct (p !! _).
    - intros k x Hk [Hr Hc]. unfold write_w, write_b.
      destruct (Nat.ltb_spec (i * cols + k) size) as [_|Hge].
      + simpl. destruct (_ <? _); [|done].
        destruct (p !! _); [|done]. unfold a2_set. simpl. by rewrite Hc.
      + exfalso. unfold size, a2_len in Hge. fold rows cols in Hge. nia. }
  destruct (for_range_sim P adata rows
     (fun i w' => for_range cols (fun j => write_w p off size cols i j) w')
     (fun i l => for_range cols (fun j => write_b p off (i * cols + j)) l) w)
    as [[Hr Hc] Hd].
  - intros k x Hk Hx. by apply Hinner.
  - intros k x Hk Hx. by apply Hinner.
  - done.
  - rewrite for_range_nested in Hd.
    assert (Hlen : rows * cols = length (adata w)) by (rewrite Hwf; done).
    rewrite Hlen, for_range_write_b in Hd by done.
    destruct (for_range rows _ w) as [r' c' d']. simpl in *. subst.
    f_equal. unfold seg_write. apply imap_ext. intros k x Hk.
    apply lookup_lt_Some in Hk. by destruct (Nat.ltb_spec k (length (adata w))); [|lia].
Qed.

Lemma seg_write_app p off l1 l2 :
  seg_write p off (l1 ++ l2) = seg_write p off l1 ++ seg_write p (off + length l1) l2.
Proof.
  unfold seg_write. rewrite imap_app. f_equal.
  apply imap_ext. intros i x _. by rewrite Nat.add_assoc.
Qed.

Lemma length_seg_write p off l : length (seg_write p off l) = length l.
Proof. apply length_imap. Qed.

Lemma lookup_seg_write p off l k :
  seg_write p off l !! k = (fun x => default x (p !! (off + k))) <$> l !! k.
Proof. apply list_lookup_imap. Qed.

(** A segment written with the values it already holds is unchanged. *)
Lemma seg_write_app_id pre l post :
  seg_write (pre ++ l ++ post) (length pre) l = l.
Proof.
  apply list_eq. intros k. rewrite lookup_seg_write.
  destruct (l !! k) as [x|] eqn:Hk; [|done]. simpl.
  rewrite lookup_app_r by lia. replace (length pre + k - length pre) with k by lia.
  by rewrite (lookup_app_l l post k), Hk by (apply lookup_lt_Some in Hk; lia).
Qed.

Lemma from_params_vec_seg m p :
  model_wf m ->
  from_params_vec m p =
  (Ok tt, mkModel
            (mkArray2 (nrows (w1 m)) (ncols (w1 m)) (seg_write p 0 (adata (w1 m))))
            (seg_write p (a2_len (w1 m)) (b1 m))
            (mkArray2 (nrows (w2 m)) (ncols (w2 m))
               (seg_write p (a2_len (w1 m) + length (b1 m)) (adata (w2 m))))
            (seg_write p (a2_len (w1 m) + length (b1 m) + a2_len (w2 m)) (b2 m))
            (learning_rate m)).
Proof.
  intros [Hw1 Hw2]. unfold from_params_vec.
  rewrite !write_matrix_seg, !write_vector_seg by done. done.
Qed.

(** Flattening the written model: the flattened model written as one segment. *)
Lemma to_params_vec_from_params_vec m p m' :
  model_wf m -> from_params_vec m p = (Ok tt, m') ->
  to_params_vec m' = seg_write p 0 (to_params_vec m).
Proof.
  intros Hwf Hm. rewrite from_params_vec_seg in Hm by done.
  injection Hm as <-. destruct Hwf as [Hw1 Hw2].
  unfold to_params_vec. simpl. rewrite !seg_write_app.
  unfold a2_wf in *. rewrite Hw1, Hw2. simpl. done.
Qed.

Lemma lookup_seg_write_0 p l k :
  k < length l ->
  seg_write p 0 l !! k = if decide (k < length p) then p !! k else l !! k.
Proof.
  intros Hk. rewrite lookup_seg_write. simpl.
  destruct (lookup_lt_is_Some_2 l k) as [y Hy]; [done|]. rewrite Hy. simpl.
  case_decide.
  - destruct (lookup_lt_is_Some_2 p k) as [z Hz]; [done|]. by rewrite Hz.
  - by rewrite lookup_ge_None_2 by lia.
Qed.

Lemma seg_write_0_prefix p l :
  length p <= length l -> seg_write p 0 l = p ++ drop (length p) l.
Proof.
  intros Hle. apply list_eq. intros k.
  destruct (decide (k < length l)) as [Hk|Hk].
  - rewrite lookup_seg_write_0 by done. case_decide.
    + by rewrite lookup_app_l.
    + rewrite lookup_app_r, lookup_drop by lia. f_equal. lia.
  - rewrite !lookup_ge_None_2; try done.
    + rewrite length_app, length_drop. lia.
    + rewrite length_seg_write. lia.
Qed.

Lemma length_to_params_vec m : model_wf m -> length (to_params_vec m) = total_params m.
Proof.
  intros [Hw1 Hw2]. unfold to_params_vec, total_params, a2_wf in *.
  rewrite !length_app, Hw1, Hw2. lia.
Qed.

End CodecLemmas.

(** ** Parameter codec claims *)

Section CodecClaims.
Context {F : Type}.

(** C6: [from_params_vec] always reports success; each destination index
    is written only when its flat offset lies within [v], so every position
    at or beyond [len v] keeps its value, for a vector that is too short as
    well as too long; when [v] is shorter than the model, the flattened
    model becomes [v] followed by the untouched rest, in codec order. *)
Theorem from_params_vec_tolerant_write (m : SimpleModel F) (v : list F) :
  model_wf m ->
  exists m', from_params_vec m v = (Ok tt, m') /\
    model_wf m' /\ same_shape m m' /\ learning_rate m' = learning_rate m /\
    length (to_params_vec m') = total_params m /\
    (forall k, k < total_params m ->
       to_params_vec m' !! k =
       if decide (k < length v) then v !! k else to_params_vec m !! k) /\
    (length v < total_params m ->
       to_params_vec m' = v ++ drop (length v) (to_params_vec m)).
Proof.
  intros Hwf. destruct (from_params_vec m v) as [r m'] eqn:Hm.
  pose proof Hm as Hm'. rewrite from_params_vec_seg in Hm' by done.
  injection Hm' as <- Hm'. exists m'. split; [done|].
  pose proof (to_params_vec_from_params_vec m v m' Hwf Hm) as Hflat.
  pose proof (length_to_params_vec m Hwf) as Hlen.
  destruct Hwf as [Hw1 Hw2]. subst m'.
  split; [|split; [|split; [done|split; [|split]]]].
  - unfold model_wf, a2_wf, a2_len in *. simpl. by rewrite !length_seg_write.
  - unfold same_shape. simpl. by rewrite !length_seg_write.
  - by rewrite Hflat, length_seg_write.
  - intros k Hk. rewrite Hflat. apply lookup_seg_write_0. lia.
  - intros Hv. rewrite Hflat. apply seg_write_0_prefix. lia.
Qed.

(** C7: flattening a model and loading the vector back leaves it unchanged. *)
Theorem from_params_vec_roundtrip (m : SimpleModel F) :
  model_wf m -> from_params_vec m (to_params_vec m) = (Ok tt, m).
Proof.
  intros Hwf. rewrite from_params_vec_seg by done.
  destruct Hwf as [Hw1 Hw2]. unfold a2_wf in *.
  destruct m as [[r1 c1 d1] bb1 [r2 c2 d2] bb2 lr]. simpl in *.
  unfold to_params_vec. simpl.
  rewrite <- Hw1, <- Hw2.
  f_equal. f_equal.
  - f_equal. apply (seg_write_app_id []).
  - apply seg_write_app_id.
  - f_equal. rewrite (app_assoc d1 bb1), <- length_app. apply seg_write_app_id.
  - rewrite (app_assoc d1 bb1), (app_assoc (d1 ++ bb1) d2), <- !length_app.
    rewrite <- (app_nil_r (((d1 ++ bb1) ++ d2) ++ bb2)), <- app_assoc. apply seg_write_app_id.
Qed.

End CodecClaims.

Lemma from_params_vec_tolerant_write_witness :
  model_wf small_model /\
  from_params_vec small_model [q 7; q 8; q 9] =
  (Ok tt, mkModel (mkArray2 2 1 [q 7; q 8]) [q 9] (mkArray2 1 1 [q 4]) [q 5] (Qmake 1 100)) /\
  exists m', from_params_vec small_model [q 7; q 8; q 9] = (Ok tt, m') /\
    model_wf m' /\ same_shape small_model m' /\ learning_rate m' = learning_rate small_model /\
    length (to_params_vec m') = total_params small_model /\
    (forall k, k < total_params small_model ->
       to_params_vec m' !! k =
       if decide (k < length [q 7; q 8; q 9]) then [q 7; q 8; q 9] !! k
       else to_params_vec small_model !! k) /\
    (length [q 7; q 8; q 9] < total_params small_model ->
       to_params_vec m' = [q 7; q 8; q 9] ++ drop 3 (to_params_vec small_model)).
Proof.
  split; [split; reflexivity|]. split; [reflexivity|].
  apply (from_params_vec_tolerant_write small_model [q 7; q 8; q 9]).
  split; reflexivity.
Defined.

Lemma from_params_vec_roundtrip_witness :
  model_wf small_model /\
  from_params_vec small_model (to_params_vec small_model) = (Ok tt, small_model).
Proof.
  split; [split; reflexivity|].
  apply (from_params_vec_roundtrip small_model). split; reflexivity.
Defined.

(** ** Aggregator lemmas *)

Section ServerLemmas.
Context {F : Type} `{!F32 F}.
Implicit Types (s : CentralServer F).

Lemma from_params_vec_ok (m : SimpleModel F) (ps : list F) :
  from_params_vec m ps = (Ok tt, snd (from_params_vec m ps)).
Proof. reflexivity. Qed.

Lemma aggregate_and_broadcast_some s a :
  aggregated_params s = Some a ->
  aggregate_and_broadcast s =
  (Ok tt,
   mkServer (nodes s) (Some (averaged s a)) (snd (from_params_vec (model s) (averaged s a)))
            (updates_received s) (total_nodes s),
   broadcast (nodes s) (UpdateModel (averaged s a))).
Proof. intros Ha. unfold aggregate_and_broadcast. rewrite Ha. reflexivity. Qed.

Lemma aggregate_and_broadcast_none s :
  aggregated_params s = None ->
  aggregate_and_broadcast s = (Err "No parameters to aggregate", s, []).
Proof. intros Ha. unfold aggregate_and_broadcast. by rewrite Ha. Qed.

Lemma accumulate_fields s msg :
  nodes (accumulate s msg) = register (nodes s) (node_addr msg) /\
  updates_received (accumulate s msg) = S (updates_received s) /\
  total_nodes (accumulate s msg) = total_nodes s /\
  model (accumulate s msg) = model s /\
  aggregated_params (accumulate s msg) =
    Some (match aggregated_params s with
          | Some a => zip_add a (params msg)
          | None => params msg
          end).
Proof. unfold accumulate. simpl. by destruct (aggregated_params s). Qed.

(** One parameter update: never an error; the round closes exactly when
    the count reaches [total_nodes], and then the round state is reset. *)
Lemma handle_server_message_spec s msg r s' effs closed :
  handle_server_message s msg = (r, s', effs, closed) ->
  r = Ok tt /\
  closed = (total_nodes s <=? S (updates_received s)) /\
  updates_received s' = (if closed then 0 else S (updates_received s)) /\
  total_nodes s' = total_nodes s /\
  nodes s' = register (nodes s) (node_addr msg) /\
  aggregated_params s' =
    (if closed then None else aggregated_params (accumulate s msg)).
Proof.
  unfold handle_server_message.
  destruct (accumulate_fields s msg) as (Hn & Hr & Ht & Hm & Ha).
  rewrite Hr, Ht.
  destruct (Nat.leb_spec (total_nodes s) (S (updates_received s))).
  - rewrite (aggregate_and_broadcast_some _ _ Ha).
    intros Heq. injection Heq as <- <- <- <-. simpl. by rewrite Hn, Ht.
  - intros Heq. injection Heq as <- <- <- <-. by rewrite Hr, Ht, Hn.
Qed.

End ServerLemmas.

Section RoundLemmas.
Context {F : Type} `{!F32 F}.
Implicit Types (s : CentralServer F).

(** The closure flags of a run: the [k]-th update closes a round exactly
    when [received + k] is a multiple of [total_nodes]. *)
Lemma run_updates_flags s (msgs : list (ServerMessage F)) :
  1 <= total_nodes s -> updates_received s < total_nodes s ->
  fst (run_updates s msgs) =
  map (fun k => (updates_received s + k) mod total_nodes s =? 0) (seq 1 (length msgs)).
Proof.
  revert s. induction msgs as [|msg msgs IH]; intros s HN Hr; [done|].
  simpl. destruct (handle_server_message s msg) as [[[r s'] effs] closed] eqn:Hh.
  destruct (handle_server_message_spec _ _ _ _ _ _ Hh)
    as (_ & Hc & Hr' & Ht' & _ & _).
  destruct (run_updates s' msgs) as [flags s''] eqn:Hrun. simpl.
  set (N := total_nodes s) in *. set (r0 := updates_received s) in *.
  assert (Hlt : updates_received s' < total_nodes s').
  { rewrite Hr', Ht'. subst closed. destruct (Nat.leb_spec N (S r0)); lia. }
  pose proof (IH s' ltac:(lia) Hlt) as Hflags. rewrite Hrun in Hflags.
  simpl in Hflags. rewrite Hflags, Ht'.
  rewrite <- (seq_shift (length msgs) 1), map_map. f_equal.
  - subst closed. destruct (Nat.leb_spec N (S r0)).
    + replace (r0 + 1) with N by lia. by rewrite Nat.Div0.mod_same.
    + rewrite Nat.mod_small by lia. by destruct (Nat.eqb_spec (r0 + 1) 0); [lia|].
  - apply map_ext. intros k. rewrite Hr'. fold N. subst closed.
    destruct (Nat.leb_spec N (S r0)).
    + replace (r0 + S k) with (k + 1 * N) by lia. by rewrite Nat.Div0.mod_add.
    + by replace (r0 + S k) with (S r0 + k) by lia.
Qed.

Lemma zip_add_lookup (a b : list F) (i : nat) :
  zip_add a b !! i =
  match a !! i, b !! i with
  | Some x, Some y => Some (f32_add x y)
  | Some x, None => Some x
  | None, _ => None
  end.
Proof.
  revert b i. induction a as [|x a IH]; intros b i; [done|].
  destruct b as [|y b].
  - simpl. by destruct (((x :: a) : list F) !! i).
  - destruct i as [|i]; [done|]. simpl. apply IH.
Qed.

Lemma length_zip_add (a b : list F) : length (zip_add a b) = length a.
Proof.
  revert b. induction a as [|x a IH]; intros [|y b]; simpl; auto.
Qed.

End RoundLemmas.

(** ** Registry lemmas *)

Lemma contains_In (ns : list string) (a : string) : contains ns a = true <-> In a ns.
Proof.
  unfold contains. rewrite existsb_exists. split.
  - intros (x & Hx & Heq). apply String.eqb_eq in Heq. by subst.
  - intros Hin. exists a. split; [done|]. apply String.eqb_refl.
Qed.

Lemma register_cases (ns : list string) (a : string) :
  (In a ns /\ register ns a = ns) \/ (~ In a ns /\ register ns a = ns ++ [a]).
Proof.
  unfold register. destruct (contains ns a) eqn:Hc.
  - left. split; [by apply contains_In|done].
  - right. split; [|done]. intros Hin. apply contains_In in Hin. congruence.
Qed.

Lemma register_prefix (ns : list string) (a : string) :
  exists suffix, register ns a = ns ++ suffix.
Proof.
  destruct (register_cases ns a) as [[_ ->]|[_ ->]].
  - exists []. by rewrite app_nil_r.
  - by exists [a].
Qed.

Lemma register_NoDup (ns : list string) (a : string) : NoDup ns -> NoDup (register ns a).
Proof.
  intros Hnd. destruct (register_cases ns a) as [[_ ->]|[Hn ->]]; [done|].
  apply NoDup_app. split; [done|]. split.
  - intros x Hx Hx'. apply list_elem_of_singleton in Hx'. subst x.
    apply Hn, list_elem_of_In, Hx.
  - apply NoDup_singleton.
Qed.

Lemma In_register (ns : list string) (a : string) : In a (register ns a).
Proof.
  destruct (register_cases ns a) as [[H ->]|[_ ->]]; [done|].
  apply in_or_app. right. by left.
Qed.

(** ** Aggregator claims *)

Section AggregatorClaims.
Context {F : Type} `{!F32 F}.
Implicit Types (s : CentralServer F).

(** The node listing: every registered address except ["ping"], as active. *)
Lemma In_get_nodes s st :
  In st (get_nodes s) <->
  In (address st) (nodes s) /\ address st <> "ping" /\ status st = "active".
Proof.
  destruct st as [a t]. unfold get_nodes. rewrite in_map_iff. simpl. split.
  - intros (a' & Heq & Hin). injection Heq as -> <-.
    apply filter_In in Hin as [Hin Hp].
    apply negb_true_iff, String.eqb_neq in Hp. done.
  - intros (Hin & Hp & ->). exists a. split; [done|].
    apply filter_In. split; [done|]. by apply negb_true_iff, String.eqb_neq.
Qed.

(** C1 (code bug): the two exclusions differ.  The sends of a round
    closure go only to registered addresses other than ["ping"], [""] and
    ["direct"]; but [HandleGetNodes] drops ["ping"] only: it lists, as
    active, exactly the registered addresses other than ["ping"].  Every
    [UpdateModel] the aggregator handles registers ["direct"], which is
    then listed, and a [RegisterNode] of [""] gets [""] listed. *)
Theorem sentinel_listing_divergence s :
  (forall r s' effs, aggregate_and_broadcast s = (r, s', effs) ->
     forall url msg, In (Send url msg) effs ->
     exists node, In node (nodes s) /\ url = String.append node "/message" /\
       node <> "ping" /\ node <> "" /\ node <> "direct") /\
  (forall st, In st (get_nodes s) <->
     In (address st) (nodes s) /\ address st <> "ping" /\ status st = "active") /\
  (forall p : list F, let '(r, s', _, _) := server_handle_node_message s (UpdateModel p) in
     r = Ok tt /\ In "direct" (nodes s') /\ In (mkNodeStatus "direct" "active") (get_nodes s')) /\
  (let '(r, s', _, _) := server_handle_node_message s (RegisterNode "") in
     r = Ok tt /\ In (mkNodeStatus "" "active") (get_nodes s')).
Proof.
  split; [|split; [|split]].
  - intros r s' effs Hagg url msg Hin.
    destruct (aggregated_params s) as [a|] eqn:Ha.
    + rewrite (aggregate_and_broadcast_some _ _ Ha) in Hagg.
      injection Hagg as _ _ <-. unfold broadcast in Hin.
      apply in_flat_map in Hin as (node & Hnode & Hin).
      destruct (is_broadcast_target node) eqn:Ht; [|done].
      destruct Hin as [Heq|[]]. injection Heq as <- _.
      exists node. unfold is_broadcast_target in Ht.
      apply andb_prop in Ht as [Ht Hd]. apply andb_prop in Ht as [Hp He].
      apply negb_true_iff, String.eqb_neq in Hp, He, Hd. done.
    + rewrite (aggregate_and_broadcast_none _ Ha) in Hagg.
      by injection Hagg as _ _ <-.
  - intros st. apply In_get_nodes.
  - intros p. simpl.
    destruct (handle_server_message s (mkServerMessage "direct" p)) as [[[r s'] effs] c] eqn:Hh.
    destruct (handle_server_message_spec _ _ _ _ _ _ Hh) as (Hr & _ & _ & _ & Hn & _).
    assert (Hd : In "direct" (nodes s')) by (rewrite Hn; apply In_register).
    split; [done|]. split; [done|]. by apply In_get_nodes.
  - simpl. split; [done|]. apply In_get_nodes. simpl. split; [apply In_register|]. done.
Qed.

(** C3: from a fresh round ([updates_received = 0], as at start and after
    every closure) with [total_nodes = N >= 1], the [k]-th accepted update
    closes the round exactly when [k] is a multiple of [N]: the [N]-th update
    since the last closure, never an earlier or a later one. *)
Theorem round_closes_on_nth_update s (msgs : list (ServerMessage F)) (N : nat) :
  total_nodes s = N -> 1 <= N -> updates_received s = 0 ->
  fst (run_updates s msgs) = map (fun k => k mod N =? 0) (seq 1 (length msgs)).
Proof.
  intros HN H1 H0. rewrite run_updates_flags by lia. rewrite H0, HN. done.
Qed.

(** C4: whenever an update closes the round, the count is 0 and the
    accumulator absent right after; the next update seeds the accumulator
    with a copy of its own vector and counts 1. *)
Theorem post_closure_reset s msg r s' effs closed :
  handle_server_message s msg = (r, s', effs, closed) ->
  (closed = true <-> total_nodes s <= S (updates_received s)) /\
  (closed = true ->
     updates_received s' = 0 /\ aggregated_params s' = None /\
     forall msg', aggregated_params (accumulate s' msg') = Some (params msg') /\
                  updates_received (accumulate s' msg') = 1).
Proof.
  intros Hh. destruct (handle_server_message_spec _ _ _ _ _ _ Hh)
    as (_ & Hc & Hr' & _ & _ & Ha').
  split.
  - subst closed. apply Nat.leb_le.
  - intros ->. rewrite Hr', Ha'. split; [done|split; [done|]].
    intros msg'. destruct (accumulate_fields s' msg') as (_ & Hr'' & _ & _ & Ha'').
    rewrite Ha'', Ha', Hr'', Hr'. done.
Qed.

End AggregatorClaims.

(** C9: a closure invoked with no accumulator reports the aggregation
    error, sends nothing and leaves the whole state (registry, count,
    accumulator, model) as it was. *)
Theorem aggregate_without_accumulator {F : Type} `{!F32 F} (s : CentralServer F) :
  aggregated_params s = None ->
  aggregate_and_broadcast s = (Err "No parameters to aggregate", s, []).
Proof. apply aggregate_and_broadcast_none. Qed.

(** C10: [UpdateModel { params }] at the aggregator is handled as the
    parameter update of sender ["direct"]: it registers ["direct"] when
    absent and counts as one contribution to the round. *)
Theorem update_model_is_direct_update {F : Type} `{!F32 F} (s : CentralServer F) (p : list F) :
  server_handle_node_message s (UpdateModel p) = handle_server_message s (mkServerMessage "direct" p) /\
  forall r s' effs closed,
    server_handle_node_message s (UpdateModel p) = (r, s', effs, closed) ->
    r = Ok tt /\
    nodes s' = register (nodes s) "direct" /\
    (contains (nodes s) "direct" = false -> nodes s' = nodes s ++ ["direct"]) /\
    closed = (total_nodes s <=? S (updates_received s)) /\
    updates_received s' = (if closed then 0 else S (updates_received s)).
Proof.
  split; [done|]. intros r s' effs closed Hh.
  destruct (handle_server_message_spec _ _ _ _ _ _ Hh) as (Hr & Hc & Hr' & _ & Hn & _).
  split; [done|]. split; [done|]. split; [|done].
  intros Hnc. rewrite Hn. unfold register. cbn [node_addr]. by rewrite Hnc.
Qed.

(** C5: with an accumulator present, an update is added elementwise over
    the shorter of the two lengths only: the accumulator keeps its length,
    its elements past the update's length are untouched, extra update
    elements are dropped, and no error is raised; accumulator [[1,1,1]]
    receiving [[5,5]] becomes [[6,6,1]]. *)
Theorem accumulate_truncating_add :
  (forall (F : Type) `{!F32 F} (s : CentralServer F) (msg : ServerMessage F) (a : list F),
     aggregated_params s = Some a ->
     aggregated_params (accumulate s msg) = Some (zip_add a (params msg)) /\
     length (zip_add a (params msg)) = length a /\
     (forall i x y, a !! i = Some x -> params msg !! i = Some y ->
        zip_add a (params msg) !! i = Some (f32_add x y)) /\
     (forall i, length (params msg) <= i -> zip_add a (params msg) !! i = a !! i) /\
     fst (fst (fst (handle_server_message s msg))) = Ok tt) /\
  handle_server_message
    (mkServer ["http://127.0.0.1:8002"] (Some [q 1; q 1; q 1]) small_model 1 3)
    (mkServerMessage "direct" [q 5; q 5])
  = (Ok tt, mkServer ["http://127.0.0.1:8002"; "direct"] (Some [q 6; q 6; q 1]) small_model 2 3,
     [], false).
Proof.
  split; [|vm_compute; reflexivity].
  intros F FO s msg a Ha.
  destruct (accumulate_fields s msg) as (_ & _ & _ & _ & Hacc).
  rewrite Ha in Hacc. split; [done|]. split; [apply length_zip_add|].
  split; [|split].
  - intros i x y Hx Hy. by rewrite zip_add_lookup, Hx, Hy.
  - intros i Hi. rewrite zip_add_lookup, (lookup_ge_None_2 (params msg) i Hi).
    by destruct (a !! i).
  - destruct (handle_server_message s msg) as [[[r s'] effs] closed] eqn:Hh.
    by destruct (handle_server_message_spec _ _ _ _ _ _ Hh).
Qed.

(** C8: a closure divides every accumulator element by [total_nodes],
    loads the result into the global model and broadcasts it; with
    [total_nodes = 2], the updates [[2,4]] and [[4,6]] (both through
    [UpdateModel], so both from ["direct"]) give [[3,5]]. *)
Theorem closure_averages_by_total_nodes :
  (forall (F : Type) `{!F32 F} (s : CentralServer F) (a : list F),
     aggregated_params s = Some a ->
     let avg := map (fun x => f32_div x (f32_of_usize (total_nodes s))) a in
     aggregate_and_broadcast s =
     (Ok tt,
      mkServer (nodes s) (Some avg) (snd (from_params_vec (model s) avg))
               (updates_received s) (total_nodes s),
      broadcast (nodes s) (UpdateModel avg))) /\
  let s0 := mkServer ["http://127.0.0.1:8002"] None small_model 0 2 in
  let s1 := mkServer ["http://127.0.0.1:8002"; "direct"] (Some [q 2; q 4]) small_model 1 2 in
  server_handle_node_message s0 (UpdateModel [q 2; q 4]) = (Ok tt, s1, [], false) /\
  server_handle_node_message s1 (UpdateModel [q 4; q 6]) =
  (Ok tt,
   mkServer ["http://127.0.0.1:8002"; "direct"] None
            (snd (from_params_vec small_model [q 3; q 5])) 0 2,
   [Send "http://127.0.0.1:8002/message" (UpdateModel [q 3; q 5])], true) /\
  snd (from_params_vec small_model [q 3; q 5]) =
  mkModel (mkArray2 2 1 [q 3; q 5]) [q 3] (mkArray2 1 1 [q 4]) [q 5] (Qmake 1 100).
Proof.
  split.
  - intros F FO s a Ha. apply aggregate_and_broadcast_some, Ha.
  - split; [|split]; vm_compute; reflexivity.
Qed.

(** C1 fails for the node listing: after one [UpdateModel] the registry
    holds ["direct"], and [get_nodes] lists it. *)
Lemma get_nodes_lists_direct :
  get_nodes (snd (fst (fst (server_handle_node_message
                              (server_new small_model 2) (UpdateModel [q 1])))))
  = [mkNodeStatus "direct" "active"] /\
  ~ (forall (s : CentralServer Q) st, In st (get_nodes s) ->
       address st <> "ping" /\ address st <> "direct" /\ address st <> "").
Proof.
  split; [vm_compute; reflexivity|].
  intros H. destruct (H (mkServer ["direct"] None small_model 0 2) (mkNodeStatus "direct" "active"))
    as (_ & Hd & _); [left; reflexivity | done].
Qed.

(** ** Node actor claims *)

(** The sibling [Predict] arm reports a reshape failure as a string error. *)
Lemma predict_reshape_error {F : Type} train forward (n : NodeActor F) (data : list F) :
  length data mod 10 <> 0 ->
  node_handle train forward n (Predict data) =
  Done (Err "Failed to reshape data: ShapeError/IncompatibleShape: incompatible shapes", n, []).
Proof.
  intros Hm. unfold node_handle, from_shape_vec.
  destruct (Nat.eqb_spec (length data) (length data / 10 * 10)) as [He|]; [|reflexivity].
  exfalso. apply Hm. rewrite He at 1. apply Nat.Div0.mod_mul.
Qed.

(** C2: [Train] with [data.len() != 10 * labels.len()] does not return a
    string error: [prepare_data]'s [expect] panics the handler. *)
Theorem train_shape_mismatch_panics {F : Type} train forward (n : NodeActor F) (data labels : list F) :
  length data <> 10 * length labels ->
  node_handle train forward n (Train data labels) = Panic "Failed to reshape data".
Proof.
  intros Hne. unfold node_handle, prepare_data, from_shape_vec.
  destruct (Nat.eqb_spec (length data) (length labels * 10)); [lia|done].
Qed.

(** ** Witnesses at concrete inputs *)

Lemma round_closes_on_nth_update_witness :
  total_nodes (server_new small_model 2) = 2 /\ 1 <= 2 /\
  updates_received (server_new small_model 2) = 0 /\
  fst (run_updates (server_new small_model 2)
         [mkServerMessage "http://127.0.0.1:8002" [q 1];
          mkServerMessage "http://127.0.0.1:8003" [q 2];
          mkServerMessage "http://127.0.0.1:8002" [q 3]])
  = [false; true; false].
Proof.
  split; [reflexivity|]. split; [lia|]. split; [reflexivity|].
  rewrite (round_closes_on_nth_update (server_new small_model 2) _ 2 eq_refl ltac:(lia) eq_refl).
  reflexivity.
Defined.

Lemma post_closure_reset_witness :
  handle_server_message
    (mkServer ["http://127.0.0.1:8002"; "direct"] (Some [q 2; q 4]) small_model 1 2)
    (mkServerMessage "direct" [q 4; q 6])
  = (Ok tt, mkServer ["http://127.0.0.1:8002"; "direct"] None
                     (snd (from_params_vec small_model [q 3; q 5])) 0 2,
     [Send "http://127.0.0.1:8002/message" (UpdateModel [q 3; q 5])], true) /\
  ((true = true <-> 2 <= S 1) /\
   (true = true ->
      updates_received (mkServer ["http://127.0.0.1:8002"; "direct"] None
                          (snd (from_params_vec small_model [q 3; q 5])) 0 2) = 0 /\
      aggregated_params (mkServer ["http://127.0.0.1:8002"; "direct"] None
                           (snd (from_params_vec small_model [q 3; q 5])) 0 2) = None /\
      forall msg',
        aggregated_params (accumulate (mkServer ["http://127.0.0.1:8002"; "direct"] None
                            (snd (from_params_vec small_model [q 3; q 5])) 0 2) msg')
        = Some (params msg') /\
        updates_received (accumulate (mkServer ["http://127.0.0.1:8002"; "direct"] None
                            (snd (from_params_vec small_model [q 3; q 5])) 0 2) msg') = 1)).
Proof.
  split; [vm_compute; reflexivity|].
  apply (post_closure_reset
           (mkServer ["http://127.0.0.1:8002"; "direct"] (Some [q 2; q 4]) small_model 1 2)
           (mkServerMessage "direct" [q 4; q 6]) (Ok tt)
           (mkServer ["http://127.0.0.1:8002"; "direct"] None
                     (snd (from_params_vec small_model [q 3; q 5])) 0 2)
           [Send "http://127.0.0.1:8002/message" (UpdateModel [q 3; q 5])] true).
  vm_compute. reflexivity.
Defined.

Lemma aggregate_without_accumulator_witness :
  aggregated_params (server_new small_model 2) = None /\
  aggregate_and_broadcast (server_new small_model 2) =
  (Err "No parameters to aggregate", server_new small_model 2, []).
Proof.
  split; [reflexivity|]. apply aggregate_without_accumulator. reflexivity.
Defined.

Lemma train_shape_mismatch_panics_witness :
  length (repeat (q 0) 9) <> 10 * length [q 1] /\
  node_handle dot_checked_train dot_checked_forward
    (mkNode model10 "http://127.0.0.1:5000" "http://127.0.0.1:8002")
    (Train (repeat (q 0) 9) [q 1]) = Panic "Failed to reshape data".
Proof.
  split; [simpl; lia|].
  apply train_shape_mismatch_panics. simpl. lia.
Defined.

(** ** Lemmas for the further properties *)

Lemma from_params_vec_shape {F} (m : SimpleModel F) (p : list F) :
  model_wf m ->
  model_wf (snd (from_params_vec m p)) /\ same_shape m (snd (from_params_vec m p)) /\
  learning_rate (snd (from_params_vec m p)) = learning_rate m.
Proof.
  intros Hwf. rewrite from_params_vec_seg by done. simpl.
  destruct Hwf as [Hw1 Hw2]. unfold model_wf, same_shape, a2_wf, a2_len in *. simpl.
  by rewrite !length_seg_write.
Qed.

Lemma total_params_same_shape {F} (m m' : SimpleModel F) :
  same_shape m m' -> total_params m' = total_params m.
Proof.
  intros (H1 & H2 & H3 & H4 & H5 & H6). unfold total_params, a2_len. lia.
Qed.

Lemma from_params_vec_full {F} (m : SimpleModel F) (p : list F) :
  model_wf m -> length p = total_params m ->
  to_params_vec (snd (from_params_vec m p)) = p.
Proof.
  intros Hwf Hp.
  rewrite (to_params_vec_from_params_vec m p (snd (from_params_vec m p)) Hwf (from_params_vec_ok m p)).
  rewrite seg_write_0_prefix by (rewrite length_to_params_vec by done; lia).
  rewrite drop_ge by (rewrite length_to_params_vec by done; lia). apply app_nil_r.
Qed.

Section ServerLemmas2.
Context {F : Type} `{!F32 F}.
Implicit Types (s : CentralServer F).

Lemma handle_server_message_effects s msg r s' effs closed :
  handle_server_message s msg = (r, s', effs, closed) ->
  (closed = false -> model s' = model s /\ effs = []) /\
  (closed = true -> exists a,
     aggregated_params (accumulate s msg) = Some a /\
     model s' = snd (from_params_vec (model s) (averaged s a)) /\
     effs = broadcast (register (nodes s) (node_addr msg)) (UpdateModel (averaged s a))).
Proof.
  unfold handle_server_message.
  destruct (accumulate_fields s msg) as (Hn & Hr & Ht & Hm & Ha).
  set (a := match aggregated_params s with Some a => zip_add a (params msg) | None => params msg end) in *.
  rewrite Hr, Ht.
  destruct (Nat.leb_spec (total_nodes s) (S (updates_received s))).
  - rewrite (aggregate_and_broadcast_some _ _ Ha).
    intros Heq. injection Heq as <- <- <- <-. split; [done|]. intros _.
    exists a. split; [done|]. simpl. unfold averaged. by rewrite Hm, Ht, Hn.
  - intros Heq. injection Heq as <- <- <- <-. split; [|done]. intros _. by rewrite Hm.
Qed.

Lemma server_step_cases s msg r s' effs closed :
  server_handle_node_message s msg = (r, s', effs, closed) ->
  (exists a, msg = RegisterNode a /\ r = Ok tt /\
     s' = set_nodes s (register (nodes s) a) /\ effs = [] /\ closed = false) \/
  (exists p, msg = UpdateModel p /\
     handle_server_message s (mkServerMessage "direct" p) = (r, s', effs, closed)) \/
  (r = Ok tt /\ s' = s /\ effs = [] /\ closed = false).
Proof.
  destruct msg as [d l|d|p|a]; simpl; intros Heq.
  - right; right. by injection Heq as <- <- <- <-.
  - right; right. by injection Heq as <- <- <- <-.
  - right; left. by exists p.
  - left. exists a. by injection Heq as <- <- <- <-.
Qed.

End ServerLemmas2.

Lemma string_length_append (a b : string) :
  String.length (String.append a b) = String.length a + String.length b.
Proof. induction a as [|c a IH]; simpl; auto. Qed.

Lemma string_append_inj_l (a b sfx : string) :
  String.append a sfx = String.append b sfx -> a = b.
Proof.
  revert b. induction a as [|c a IH]; intros [|d b] Heq; try done.
  - exfalso. apply (f_equal String.length) in Heq.
    rewrite !string_length_append in Heq. simpl in Heq. lia.
  - exfalso. apply (f_equal String.length) in Heq.
    rewrite !string_length_append in Heq. simpl in Heq. lia.
  - simpl in Heq. injection Heq as -> Heq. f_equal. by apply IH.
Qed.

Lemma In_broadcast {F} (ns : list string) (msg : NodeMessage F) url m :
  In (Send url m) (broadcast ns msg) <->
  exists n, In n ns /\ is_broadcast_target n = true /\ url = String.append n "/message" /\ m = msg.
Proof.
  unfold broadcast. rewrite in_flat_map. split.
  - intros (n & Hn & Hin). destruct (is_broadcast_target n) eqn:Ht; [|done].
    destruct Hin as [Heq|[]]. injection Heq as <- <-. by exists n.
  - intros (n & Hn & Ht & -> & ->). exists n. rewrite Ht. split; [done|by left].
Qed.

Lemma broadcast_NoDup {F} (ns : list string) (msg : NodeMessage F) :
  NoDup ns -> NoDup (broadcast ns msg).
Proof.
  induction ns as [|n ns IH]; intros Hnd; [constructor|].
  apply NoDup_cons in Hnd as [Hn Hnd]. simpl.
  destruct (is_broadcast_target n) eqn:Ht; simpl; [|by apply IH].
  apply NoDup_cons. split; [|by apply IH].
  rewrite list_elem_of_In, In_broadcast. intros (n' & Hin & _ & Hurl & _).
  apply string_append_inj_l in Hurl. subst n'. apply Hn, list_elem_of_In, Hin.
Qed.

Lemma broadcast_register_ping {F} (ns : list string) (msg : NodeMessage F) :
  broadcast (register ns "ping") msg = broadcast ns msg.
Proof.
  destruct (register_cases ns "ping") as [[_ ->]|[_ ->]]; [done|].
  unfold broadcast. rewrite flat_map_app. simpl. by rewrite app_nil_r.
Qed.

Lemma filter_not_ping_idem (ns : list string) :
  List.filter (fun a => negb (String.eqb a "ping"))
    (List.filter (fun a => negb (String.eqb a "ping")) ns) =
  List.filter (fun a => negb (String.eqb a "ping")) ns.
Proof.
  induction ns as [|a ns IH]; [done|]. simpl.
  destruct (String.eqb a "ping") eqn:Ha; simpl; rewrite ?Ha; simpl; by rewrite IH.
Qed.

Lemma In_filter_not_ping (ns : list string) (x : string) :
  In x (List.filter (fun a => negb (String.eqb a "ping")) ns) <-> In x ns /\ x <> "ping".
Proof.
  rewrite filter_In. split.
  - intros [Hin Hp]. apply negb_true_iff, String.eqb_neq in Hp. done.
  - intros [Hin Hp]. split; [done|]. by apply negb_true_iff, String.eqb_neq.
Qed.

(** What the listing keeps of a registration depends only on what it
    keeps of the registry before it. *)
Lemma filter_register (ns : list string) (x : string) :
  List.filter (fun a => negb (String.eqb a "ping")) (register ns x) =
  List.filter (fun a => negb (String.eqb a "ping"))
    (register (List.filter (fun a => negb (String.eqb a "ping")) ns) x).
Proof.
  set (np := fun a => negb (String.eqb a "ping")).
  destruct (String.eqb_spec x "ping") as [->|Hx].
  - destruct (register_cases ns "ping") as [[_ ->]|[_ ->]];
    destruct (register_cases (List.filter np ns) "ping") as [[_ ->]|[_ ->]];
    rewrite ?List.filter_app; simpl; rewrite ?app_nil_r; unfold np; by rewrite filter_not_ping_idem.
  - destruct (register_cases ns x) as [[Hin ->]|[Hn ->]];
    destruct (register_cases (List.filter np ns) x) as [[Hin' ->]|[Hn' ->]].
    + unfold np. by rewrite filter_not_ping_idem.
    + exfalso. apply Hn'. by apply In_filter_not_ping.
    + exfalso. apply Hn. by apply In_filter_not_ping in Hin' as [].
    + rewrite !List.filter_app. f_equal. unfold np. by rewrite filter_not_ping_idem.
Qed.

(** ["ping"] is never a broadcast target, so the broadcast only sees the
    registry without it. *)
Lemma broadcast_filter {F} (ns : list string) (msg : NodeMessage F) :
  broadcast ns msg = broadcast (List.filter (fun a => negb (String.eqb a "ping")) ns) msg.
Proof.
  induction ns as [|a ns IH]; [done|]. simpl.
  destruct (String.eqb_spec a "ping") as [->|Ha]; simpl.
  - exact IH.
  - unfold broadcast in *. simpl. by rewrite IH.
Qed.

Section ProbeLemmas.
Context {F : Type} `{!F32 F}.
Implicit Types (s : CentralServer F).

Lemma same_but_ping_register s t x :
  same_but_ping s t ->
  List.filter (fun a => negb (String.eqb a "ping")) (register (nodes s) x) =
  List.filter (fun a => negb (String.eqb a "ping")) (register (nodes t) x).
Proof. intros [Hf _]. by rewrite filter_register, Hf, <- filter_register. Qed.

Lemma handle_server_message_same_but_ping s t msg :
  same_but_ping s t ->
  let '(r1, s1, e1, c1) := handle_server_message s msg in
  let '(r2, s2, e2, c2) := handle_server_message t msg in
  r1 = r2 /\ e1 = e2 /\ c1 = c2 /\ same_but_ping s1 s2.
Proof.
  intros H. pose proof (same_but_ping_register s t (node_addr msg) H) as Hr.
  destruct H as (Hf & Ha & Hm & Hk & HN).
  destruct (handle_server_message s msg) as [[[r1 s1] e1] c1] eqn:H1.
  destruct (handle_server_message t msg) as [[[r2 s2] e2] c2] eqn:H2.
  destruct (handle_server_message_spec _ _ _ _ _ _ H1) as (-> & Hc1 & Hk1 & HN1 & Hn1 & Ha1).
  destruct (handle_server_message_spec _ _ _ _ _ _ H2) as (-> & Hc2 & Hk2 & HN2 & Hn2 & Ha2).
  assert (Hc : c2 = c1) by (by rewrite Hc1, Hc2, Hk, HN). clear Hc1 Hc2. subst c2.
  assert (Hacc : aggregated_params (accumulate s msg) = aggregated_params (accumulate t msg)).
  { destruct (accumulate_fields s msg) as (_ & _ & _ & _ & ->).
    destruct (accumulate_fields t msg) as (_ & _ & _ & _ & ->). by rewrite Ha. }
  destruct (handle_server_message_effects _ _ _ _ _ _ H1) as [E1f E1t].
  destruct (handle_server_message_effects _ _ _ _ _ _ H2) as [E2f E2t].
  assert (Hrest : same_but_ping s1 s2 <-> model s1 = model s2).
  { unfold same_but_ping. rewrite Hn1, Hn2, Hk1, Hk2, HN1, HN2, Ha1, Ha2, Hr, Hk, HN, Hacc.
    split; [intros (_ & _ & Hmm & _); exact Hmm|intros Hmm; by repeat split]. }
  destruct c1.
  - destruct (E1t eq_refl) as (a1 & Hg1 & Hm1 & ->).
    destruct (E2t eq_refl) as (a2 & Hg2 & Hm2 & ->).
    assert (a1 = a2) as <- by congruence.
    assert (Hav : averaged s a1 = averaged t a1) by (unfold averaged; by rewrite HN).
    split; [done|]. split.
    + rewrite Hav, (broadcast_filter (register (nodes s) _)), (broadcast_filter (register (nodes t) _)).
      by rewrite Hr.
    + split; [done|]. apply Hrest. by rewrite Hm1, Hm2, Hm, Hav.
  - destruct (E1f eq_refl) as [Hm1 ->]. destruct (E2f eq_refl) as [Hm2 ->].
    split; [done|]. split; [done|]. split; [done|]. apply Hrest. by rewrite Hm1, Hm2.
Qed.

Lemma server_input_step_same_but_ping s t i :
  same_but_ping s t ->
  let '(r1, s1, e1, c1) := server_input_step s i in
  let '(r2, s2, e2, c2) := server_input_step t i in
  r1 = r2 /\ e1 = e2 /\ c1 = c2 /\ same_but_ping s1 s2.
Proof.
  intros H. destruct i as [m|m]; simpl; [|by apply handle_server_message_same_but_ping].
  destruct m as [d l|d|p|x]; simpl.
  - do 3 (split; [done|]). exact H.
  - do 3 (split; [done|]). exact H.
  - by apply handle_server_message_same_but_ping.
  - do 3 (split; [done|]). pose proof (same_but_ping_register s t x H) as Hr.
    destruct H as (Hf & Ha & Hm & Hk & HN). by repeat split.
Qed.

Lemma run_server_same_but_ping s t inputs :
  same_but_ping s t ->
  let '(rs1, e1, s1) := run_server s inputs in
  let '(rs2, e2, s2) := run_server t inputs in
  rs1 = rs2 /\ e1 = e2 /\ same_but_ping s1 s2.
Proof.
  revert s t. induction inputs as [|i rest IH]; intros s t H; [done|]. simpl.
  pose proof (server_input_step_same_but_ping s t i H) as Hstep.
  destruct (server_input_step s i) as [[[r1 s1] e1] c1].
  destruct (server_input_step t i) as [[[r2 s2] e2] c2].
  destruct Hstep as (<- & <- & _ & H1).
  specialize (IH s1 s2 H1).
  destruct (run_server s1 rest) as [[rs1 e1'] s1'].
  destruct (run_server s2 rest) as [[rs2 e2'] s2'].
  destruct IH as (<- & <- & H2). done.
Qed.

Lemma get_nodes_same_but_ping s t : same_but_ping s t -> get_nodes s = get_nodes t.
Proof. intros [Hf _]. unfold get_nodes. by rewrite Hf. Qed.




End ProbeLemmas.

(** ** Further properties: aggregator *)

Section AggregatorExtras.
Context {F : Type} `{!F32 F}.
Implicit Types (s : CentralServer F).


(** Whatever message the aggregator handles, its registry only grows at
    the end, never reorders or drops an address, and stays free of
    duplicates. *)
Theorem registry_append_only s msg r s' effs closed :
  server_handle_node_message s msg = (r, s', effs, closed) ->
  (exists suffix, nodes s' = nodes s ++ suffix) /\
  (NoDup (nodes s) -> NoDup (nodes s')).
Proof.
  intros Hh. destruct (server_step_cases _ _ _ _ _ _ Hh)
    as [(a & _ & _ & -> & _ & _)|[(p & _ & Hh')|(_ & -> & _ & _)]].
  - split; [apply register_prefix|apply register_NoDup].
  - destruct (handle_server_message_spec _ _ _ _ _ _ Hh') as (_ & _ & _ & _ & Hn & _).
    rewrite Hn. split; [apply register_prefix|apply register_NoDup].
  - split; [exists []; by rewrite app_nil_r|done].
Qed.

(** The aggregator's [/message] endpoint answers every message with
    [{"status": "success"}]: aggregation failures are only logged. *)
Theorem server_message_always_success s msg :
  fst (fst (fst (server_handle_node_message s msg))) = Ok tt /\
  message_reply (fst (fst (fst (server_handle_node_message s msg)))) = Reply 200 "success" None.
Proof.
  destruct (server_handle_node_message s msg) as [[[r s'] effs] closed] eqn:Hh. simpl.
  assert (r = Ok tt) as ->; [|done].
  destruct (server_step_cases _ _ _ _ _ _ Hh) as [(_ & _ & -> & _)|[(p & _ & Hh')|(-> & _)]];
    [done| |done].
  by destruct (handle_server_message_spec _ _ _ _ _ _ Hh').
Qed.

(** With [total_nodes >= 1], every message keeps the round bookkeeping
    consistent: the count stays below [total_nodes] and the accumulator is
    absent exactly when the count is 0; a fresh server starts so. *)
Theorem round_inv_preserved s msg r s' effs closed :
  1 <= total_nodes s -> round_inv s ->
  server_handle_node_message s msg = (r, s', effs, closed) ->
  round_inv s' /\ total_nodes s' = total_nodes s.
Proof.
  intros HN [Hlt Hiff] Hh. destruct (server_step_cases _ _ _ _ _ _ Hh)
    as [(a & _ & _ & -> & _ & _)|[(p & _ & Hh')|(_ & -> & _ & _)]].
  - done.
  - destruct (handle_server_message_spec _ _ _ _ _ _ Hh') as (_ & Hc & Hr' & Ht' & _ & Ha').
    destruct (accumulate_fields s (mkServerMessage "direct" p)) as (_ & _ & _ & _ & Hacc).
    rewrite Hacc in Ha'. unfold round_inv. rewrite Hr', Ha', Ht'. subst closed.
    destruct (Nat.leb_spec (total_nodes s) (S (updates_received s))).
    + split; [split; [lia|done]|done].
    + split; [split; [lia|]|done]. split; [done|lia].
  - done.
Qed.

Lemma round_inv_new (m0 : SimpleModel F) (N : nat) : 1 <= N -> round_inv (server_new m0 N).
Proof. intros HN. unfold round_inv. simpl. split; [lia|done]. Qed.

(** The global model never changes shape: after any message it is still
    well formed with the same layer shapes and learning rate, so
    [GetModelParams] always returns a vector of the same length. *)
Theorem global_model_shape_invariant s msg r s' effs closed :
  model_wf (model s) ->
  server_handle_node_message s msg = (r, s', effs, closed) ->
  model_wf (model s') /\ same_shape (model s) (model s') /\
  learning_rate (model s') = learning_rate (model s) /\
  exists v v', get_model_params s = Ok v /\ get_model_params s' = Ok v' /\ length v' = length v.
Proof.
  intros Hwf Hh.
  assert (Hm : model s' = model s \/ exists p, model s' = snd (from_params_vec (model s) p)).
  { destruct (server_step_cases _ _ _ _ _ _ Hh)
      as [(a & _ & _ & -> & _ & _)|[(p & _ & Hh')|(_ & -> & _ & _)]]; [by left| |by left].
    destruct (handle_server_message_effects _ _ _ _ _ _ Hh') as [Hf Ht].
    destruct closed; [right|left].
    - destruct (Ht eq_refl) as (a & _ & -> & _). by eexists.
    - by destruct (Hf eq_refl). }
  assert (model_wf (model s') /\ same_shape (model s) (model s') /\
          learning_rate (model s') = learning_rate (model s)) as (Hwf' & Hsh & Hlr).
  { destruct Hm as [->|[p ->]]; [|by apply from_params_vec_shape].
    split; [done|]. split; [|done]. unfold same_shape. done. }
  split; [done|]. split; [done|]. split; [done|].
  exists (to_params_vec (model s)), (to_params_vec (model s')).
  split; [done|]. split; [done|].
  rewrite !length_to_params_vec by done. by apply total_params_same_shape.
Qed.

(** The [/status] probe of the aggregator registers ["ping"] but changes
    neither the node listing nor the round, and it is invisible to every
    later run: from the probed state, any sequence of later inputs gives
    the same replies and the same sends (so the same broadcasts) as from
    the state before the probe, and ends in a state with the same node
    listing, round, model and node count. *)
Theorem status_probe_invisible s :
  let '(r, s', effs, closed) := get_server_status s in
  r = Ok tt /\ effs = [] /\ closed = false /\ In "ping" (nodes s') /\
  get_nodes s' = get_nodes s /\
  (forall msg : NodeMessage F, broadcast (nodes s') msg = broadcast (nodes s) msg) /\
  aggregated_params s' = aggregated_params s /\ updates_received s' = updates_received s /\
  model s' = model s /\
  (forall inputs : list (ServerInput F),
     let '(rs1, effs1, s1) := run_server s' inputs in
     let '(rs2, effs2, s2) := run_server s inputs in
     rs1 = rs2 /\ effs1 = effs2 /\ get_nodes s1 = get_nodes s2 /\
     aggregated_params s1 = aggregated_params s2 /\ updates_received s1 = updates_received s2 /\
     model s1 = model s2 /\ total_nodes s1 = total_nodes s2).
Proof.
  assert (Hsim : same_but_ping (set_nodes s (register (nodes s) "ping")) s).
  { split; [|done]. simpl.
    rewrite filter_register.
    destruct (register_cases (List.filter (fun a => negb (String.eqb a "ping")) (nodes s)) "ping")
      as [[_ ->]|[_ ->]].
    - apply filter_not_ping_idem.
    - rewrite List.filter_app, filter_not_ping_idem. simpl. by rewrite app_nil_r. }
  simpl. split; [done|]. split; [done|]. split; [done|]. split; [apply In_register|].
  split; [by apply get_nodes_same_but_ping|].
  split; [intros msg; apply broadcast_register_ping|].
  split; [done|]. split; [done|]. split; [done|].
  intros inputs.
  pose proof (run_server_same_but_ping _ _ inputs Hsim) as Hrun.
  destruct (run_server (set_nodes s (register (nodes s) "ping")) inputs) as [[rs1 e1] s1].
  destruct (run_server s inputs) as [[rs2 e2] s2].
  destruct Hrun as (<- & <- & Hs12).
  split; [done|]. split; [done|]. split; [by apply get_nodes_same_but_ping|].
  destruct Hs12 as (_ & Ha & Hm & Hk & HN). done.
Qed.

(** After a closure whose accumulator has exactly as many entries as the
    global model has parameters, [GetModelParams] returns exactly the
    averaged vector. *)
Theorem closure_then_get_model_params s a :
  model_wf (model s) -> aggregated_params s = Some a -> length a = total_params (model s) ->
  exists s' effs, aggregate_and_broadcast s = (Ok tt, s', effs) /\
    get_model_params s' = Ok (map (fun x => f32_div x (f32_of_usize (total_nodes s))) a).
Proof.
  intros Hwf Ha Hlen. rewrite (aggregate_and_broadcast_some _ _ Ha).
  eexists _, _. split; [reflexivity|]. unfold get_model_params. simpl. f_equal.
  apply from_params_vec_full; [done|]. unfold averaged. by rewrite length_map.
Qed.

(** With a duplicate-free registry (as every handler keeps it), a closure
    sends the averaged vector exactly once to every registered
    non-sentinel address, and to nothing else. *)
Theorem closure_sends_once_per_target s a :
  aggregated_params s = Some a -> NoDup (nodes s) ->
  let avg := map (fun x => f32_div x (f32_of_usize (total_nodes s))) a in
  let effs := snd (aggregate_and_broadcast s) in
  NoDup effs /\
  (forall n, In n (nodes s) -> is_broadcast_target n = true ->
     In (Send (String.append n "/message") (UpdateModel avg)) effs) /\
  (forall url m, In (Send url m) effs -> m = UpdateModel avg /\
     exists n, In n (nodes s) /\ is_broadcast_target n = true /\ url = String.append n "/message").
Proof.
  intros Ha Hnd. simpl. rewrite (aggregate_and_broadcast_some _ _ Ha). simpl.
  split; [by apply broadcast_NoDup|]. split.
  - intros n Hn Ht. apply In_broadcast. by exists n.
  - intros url m Hin. apply In_broadcast in Hin as (n & Hn & Ht & -> & ->).
    split; [done|]. by exists n.
Qed.

(** Edge case: once a round's accumulator is the empty vector (its first
    update was empty), later updates add nothing, and the closure loads
    nothing into a well-formed global model and broadcasts the empty
    vector. *)
Theorem empty_round_changes_nothing s msg :
  aggregated_params s = Some [] -> model_wf (model s) ->
  aggregated_params (accumulate s msg) = Some [] /\
  aggregate_and_broadcast s =
  (Ok tt, mkServer (nodes s) (Some []) (model s) (updates_received s) (total_nodes s),
   broadcast (nodes s) (UpdateModel [])).
Proof.
  intros Ha Hwf. split.
  - destruct (accumulate_fields s msg) as (_ & _ & _ & _ & ->). by rewrite Ha.
  - rewrite (aggregate_and_broadcast_some _ _ Ha). unfold averaged. cbn [map].
    rewrite from_params_vec_seg by done. simpl.
    destruct Hwf as [Hw1 Hw2].
    destruct (model s) as [[r1 c1 d1] bb1 [r2 c2 d2] bb2 lr]. simpl.
    assert (Hnil : forall off (l : list F), seg_write [] off l = l).
    { intros off l. apply list_eq. intros i. rewrite lookup_seg_write. by destruct (l !! i). }
    by rewrite !Hnil.
Qed.

End AggregatorExtras.

(** ** Further properties: a whole round *)

Section RoundExtras.
Context {F : Type} `{!F32 F}.
Implicit Types (s : CentralServer F).

Lemma run_updates_app s (m1 m2 : list (ServerMessage F)) :
  run_updates s (m1 ++ m2) =
  let '(f1, s1) := run_updates s m1 in
  let '(f2, s2) := run_updates s1 m2 in (f1 ++ f2, s2).
Proof.
  revert s. induction m1 as [|m m1 IH]; intros s; simpl.
  - by destruct (run_updates s m2).
  - destruct (handle_server_message s m) as [[[r s'] effs] c].
    rewrite IH. destruct (run_updates s' m1) as [f1 s1]. simpl.
    by destruct (run_updates s1 m2).
Qed.

Lemma round_sum_snoc (ps : list (list F)) p :
  round_sum (ps ++ [p]) = match ps with [] => p | _ => zip_add (round_sum ps) p end.
Proof. destruct ps as [|p0 ps]; [done|]. simpl. by rewrite foldl_app. Qed.

(** The open part of a round started from a reset state: no closure, the
    count is the number of updates and the accumulator their [round_sum]. *)
Lemma run_updates_open s (msgs : list (ServerMessage F)) :
  aggregated_params s = None -> updates_received s = 0 -> length msgs < total_nodes s ->
  run_updates s msgs =
  (repeat false (length msgs),
   mkServer (foldl register (nodes s) (map node_addr msgs))
            (match msgs with [] => None | _ => Some (round_sum (map params msgs)) end)
            (model s) (length msgs) (total_nodes s)).
Proof.
  intros Ha Hr. induction msgs as [|m msgs IH] using rev_ind; intros Hlen.
  - destruct s as [ns a md r t]. simpl in *. by subst.
  - rewrite length_app in Hlen. simpl in Hlen.
    rewrite run_updates_app, IH by lia. simpl.
    set (s1 := mkServer (foldl register (nodes s) (map node_addr msgs))
                 (match msgs with [] => None | _ => Some (round_sum (map params msgs)) end)
                 (model s) (length msgs) (total_nodes s)).
    destruct (handle_server_message s1 m) as [[[r s2] effs] c] eqn:Hh.
    destruct (handle_server_message_spec _ _ _ _ _ _ Hh) as (_ & Hc & Hr2 & Ht2 & Hn2 & Ha2).
    destruct (handle_server_message_effects _ _ _ _ _ _ Hh) as [Hf _].
    assert (c = false) as ->.
    { rewrite Hc. simpl. apply Nat.leb_gt. lia. }
    destruct (Hf eq_refl) as [Hm2 _].
    destruct (accumulate_fields s1 m) as (_ & _ & _ & _ & Hacc).
    rewrite Hacc in Ha2. simpl in Hr2, Ht2, Hn2, Hm2, Ha2.
    destruct s2 as [ns2 a2 md2 r2 t2]. simpl in *. subst.
    rewrite length_app, repeat_app, !map_app, foldl_app. simpl.
    rewrite round_sum_snoc. replace (length msgs + 1) with (S (length msgs)) by lia.
    by destruct msgs.
Qed.

(** A whole round from a reset state: with [total_nodes = N >= 1], a run of
    exactly [N] parameter updates closes the round only at the last one,
    and the global model then holds the [round_sum] of the [N] vectors
    divided by [N], the registry has every sender, and the round state is
    reset. *)
Theorem round_result_averages_updates s (msgs : list (ServerMessage F)) :
  1 <= total_nodes s -> aggregated_params s = None -> updates_received s = 0 ->
  length msgs = total_nodes s ->
  run_updates s msgs =
  (repeat false (length msgs - 1) ++ [true],
   mkServer (foldl register (nodes s) (map node_addr msgs)) None
     (snd (from_params_vec (model s) (averaged s (round_sum (map params msgs)))))
     0 (total_nodes s)).
Proof.
  intros HN Ha Hr Hlen.
  destruct msgs as [|m msgs _] using rev_ind; [simpl in Hlen; lia|].
  rewrite length_app in Hlen. simpl in Hlen.
  rewrite run_updates_app, run_updates_open by (done || lia). simpl.
  set (s1 := mkServer (foldl register (nodes s) (map node_addr msgs))
               (match msgs with [] => None | _ => Some (round_sum (map params msgs)) end)
               (model s) (length msgs) (total_nodes s)).
  destruct (handle_server_message s1 m) as [[[r s2] effs] c] eqn:Hh.
  destruct (handle_server_message_spec _ _ _ _ _ _ Hh) as (_ & Hc & Hr2 & Ht2 & Hn2 & Ha2).
  destruct (handle_server_message_effects _ _ _ _ _ _ Hh) as [_ Ht].
  assert (c = true) as ->.
  { rewrite Hc. simpl. apply Nat.leb_le. lia. }
  destruct (Ht eq_refl) as (a & Hacc & Hm2 & _).
  destruct (accumulate_fields s1 m) as (_ & _ & _ & _ & Hacc').
  rewrite Hacc' in Hacc. injection Hacc as <-.
  simpl in Hr2, Ht2, Hn2, Hm2, Ha2.
  destruct s2 as [ns2 a2 md2 r2 t2]. simpl in *. subst.
  rewrite length_app, !map_app, foldl_app. simpl. rewrite round_sum_snoc.
  replace (length msgs + 1 - 1) with (length msgs) by lia.
  unfold averaged. simpl. by destruct msgs.
Qed.

End RoundExtras.

(** ** Further properties: node actor *)

Section NodeExtras.
Context {F : Type}.
Variable train : SimpleModel F -> Array2 F -> Array2 F -> nat -> outcome (SimpleModel F).
Variable forward : SimpleModel F -> Array2 F -> outcome (Array2 F).

Lemma node_train_ok (n : NodeActor F) (data labels : list F) :
  length data = 10 * length labels ->
  node_handle train forward n (Train data labels) =
  match train (nmodel n) (mkArray2 (length labels) 10 data)
                         (mkArray2 (length labels) 1 labels) 10 with
  | Panic e => Panic e
  | Done m' =>
      Done (Ok tt, set_nmodel n m',
            [Send (String.append (server_addr n) "/message") (UpdateModel (to_params_vec m'))])
  end.
Proof.
  intros Hlen. unfold node_handle, prepare_data, from_shape_vec.
  destruct (Nat.eqb_spec (length data) (length labels * 10)); [|lia].
  destruct (Nat.eqb_spec (length labels) (length labels * 1)); [done|lia].
Qed.

(** [Train] with [data.len() = 10 * labels.len()] passes the
    [labels.len() x 10] feature matrix and the [labels.len() x 1] label
    column to [model.train] for 10 epochs.  If training panics (ndarray
    rejects the shapes, e.g. [w1] without 10 rows), the handler panics
    with it; otherwise the node keeps the trained model, returns [Ok], and
    sends exactly one message, to the aggregator's [/message]:
    [UpdateModel] with the flattened trained model. *)
Theorem train_success_sends_params (n : NodeActor F) (data labels : list F) :
  length data = 10 * length labels ->
  (forall e, train (nmodel n) (mkArray2 (length labels) 10 data)
                              (mkArray2 (length labels) 1 labels) 10 = Panic e ->
     node_handle train forward n (Train data labels) = Panic e) /\
  (forall m', train (nmodel n) (mkArray2 (length labels) 10 data)
                               (mkArray2 (length labels) 1 labels) 10 = Done m' ->
     node_handle train forward n (Train data labels) =
     Done (Ok tt, set_nmodel n m',
           [Send (String.append (server_addr n) "/message") (UpdateModel (to_params_vec m'))])).
Proof.
  intros Hlen. rewrite (node_train_ok n data labels Hlen).
  split; intros ? ->; reflexivity.
Qed.

(** [Predict] never changes the node and never sends anything.  When
    [data.len()] is not a multiple of 10 it answers the reshape error;
    otherwise the [data.len() / 10 x 10] matrix goes to [model.forward],
    whose panic (e.g. [w1] without 10 rows) is the handler's, and whose
    result is only logged before [Ok].  The [/status] probe's ten zeros
    always reach [forward] as a [1 x 10] matrix. *)
Theorem predict_checks_row_multiple (n : NodeActor F) (data : list F) :
  node_handle train forward n (Predict data) =
  (if length data mod 10 =? 0 then
     match forward (nmodel n) (mkArray2 (length data / 10) 10 data) with
     | Panic e => Panic e
     | Done _ => Done (Ok tt, n, [])
     end
   else Done (Err "Failed to reshape data: ShapeError/IncompatibleShape: incompatible shapes",
              n, [])) /\
  (forall z : F, node_handle train forward n (Predict (repeat z 10)) =
     match forward (nmodel n) (mkArray2 1 10 (repeat z 10)) with
     | Panic e => Panic e
     | Done _ => Done (Ok tt, n, [])
     end).
Proof.
  split; [|reflexivity].
  unfold node_handle, from_shape_vec.
  pose proof (Nat.div_mod (length data) 10 ltac:(lia)) as Hdm.
  destruct (Nat.eqb_spec (length data) (length data / 10 * 10)) as [He|Hne];
    destruct (Nat.eqb_spec (length data mod 10) 0) as [Hz|Hnz]; try done.
  - exfalso. apply Hnz. rewrite He. apply Nat.Div0.mod_mul.
  - exfalso. apply Hne. lia.
Qed.

(** [UpdateModel] at a node with a well-formed model always returns [Ok]
    and sends nothing; the node keeps its layer shapes and learning rate,
    its flattened model takes [params[k]] at every position [k] that
    [params] covers and keeps its value elsewhere, and a vector of exactly
    [total_params] entries becomes the node's flattened model. *)
Theorem node_update_model_loads (n : NodeActor F) (ps : list F) :
  model_wf (nmodel n) ->
  exists m', node_handle train forward n (UpdateModel ps) = Done (Ok tt, set_nmodel n m', []) /\
    model_wf m' /\ same_shape (nmodel n) m' /\ learning_rate m' = learning_rate (nmodel n) /\
    (forall k, k < total_params (nmodel n) ->
       to_params_vec m' !! k =
       if decide (k < length ps) then ps !! k else to_params_vec (nmodel n) !! k) /\
    (length ps = total_params (nmodel n) -> to_params_vec m' = ps).
Proof.
  intros Hwf. exists (snd (from_params_vec (nmodel n) ps)). split; [reflexivity|].
  destruct (from_params_vec_shape _ ps Hwf) as (Hwf' & Hsh & Hlr).
  split; [done|]. split; [done|]. split; [done|]. split.
  - intros k Hk.
    rewrite (to_params_vec_from_params_vec _ ps _ Hwf (from_params_vec_ok _ ps)).
    apply lookup_seg_write_0. by rewrite length_to_params_vec.
  - intros Hp. by apply from_params_vec_full.
Qed.

End NodeExtras.

(** ** Further properties: node start-up and registration *)

Section StartupExtras.
Context {F : Type} `{!F32 F}.


End StartupExtras.

(** ** Further properties: initialisation and synthetic data *)

Section InitExtras.
Context {F : Type} `{!F32 F}.
Variable neg : F -> F.
Variable uniform : F -> F -> nat -> F.

(** The flattened initialisation loop: position [t] takes the [k + t]-th draw. *)
Lemma for_range_fill (draw : nat -> F) (n : nat) (d : list F) (k : nat) :
  n <= length d ->
  for_range n (fun t '(d, k) => (<[t := draw k]> d, S k)) (d, k) =
  (map draw (seq k n) ++ drop n d, k + n).
Proof.
  induction n as [|n IH]; intros Hn.
  - by rewrite for_range_O, drop_0, Nat.add_0_r.
  - rewrite for_range_S, IH by lia. cbv beta iota. f_equal; [|lia].
    destruct (lookup_lt_is_Some_2 d n) as [x Hx]; [lia|].
    rewrite insert_app_r_alt by (rewrite length_map, length_seq; lia).
    rewrite length_map, length_seq, Nat.sub_diag, (drop_S d x n Hx).
    rewrite seq_S, map_app, <- app_assoc. simpl. by replace (k + n) with (n + k) by lia.
Qed.

(** [init_weights] on a matrix of its own shape overwrites every entry,
    in row-major order, with consecutive draws. *)
Lemma init_weights_fill (rows cols : nat) (bound : F) (w : Array2 F) (k : nat) :
  nrows w = rows -> ncols w = cols -> length (adata w) = rows * cols ->
  init_weights neg uniform rows cols bound w k =
  (mkArray2 rows cols (map (uniform (neg bound) bound) (seq k (rows * cols))), k + rows * cols).
Proof.
  intros Hr Hc Hl. unfold init_weights.
  set (P := fun x : Array2 F * nat => nrows (fst x) = rows /\ ncols (fst x) = cols).
  set (v := fun x : Array2 F * nat => (adata (fst x), snd x)).
  assert (Hinner : forall i x, i < rows -> P x ->
    P (for_range cols (fun j '(w, k) => (a2_set w i j (uniform (neg bound) bound k), S k)) x) /\
    v (for_range cols (fun j '(w, k) => (a2_set w i j (uniform (neg bound) bound k), S k)) x) =
    for_range cols (fun j '(d, k) => (<[i * cols + j := uniform (neg bound) bound k]> d, S k)) (v x)).
  { intros i x _ Hx. apply for_range_sim; [| |done].
    - intros j [w' k'] _ [Hr' Hc']. by split.
    - intros j [w' k'] _ [Hr' Hc']. simpl in *. unfold v, a2_set. simpl. by rewrite Hc'. }
  destruct (for_range_sim P v rows
     (fun i wk => for_range cols (fun j '(w, k) => (a2_set w i j (uniform (neg bound) bound k), S k)) wk)
     (fun i dk => for_range cols (fun j '(d, k) => (<[i * cols + j := uniform (neg bound) bound k]> d, S k)) dk)
     (w, k)) as [[Hr' Hc'] Hd].
  - intros i x Hi Hx. by apply Hinner.
  - intros i x Hi Hx. by apply Hinner.
  - by split.
  - pose proof (for_range_nested rows cols
      (fun t (dk : list F * nat) => let '(d, k) := dk in (<[t := uniform (neg bound) bound k]> d, S k))
      (adata w, k)) as Hn.
    cbv beta in Hn. unfold v in Hd at 2. simpl in Hd. rewrite Hn in Hd.
    rewrite for_range_fill, drop_ge, app_nil_r in Hd by lia.
    destruct (for_range rows _ (w, k)) as [[r' c' d'] k'].
    unfold v in Hd. simpl in *. injection Hd as -> ->. by subst.
Qed.

Lemma simple_model_new_eq (zero lr0 : F) (xavier_bound : nat -> F) (input hidden output : nat) :
  simple_model_new zero lr0 neg xavier_bound uniform input hidden output =
  mkModel
    (mkArray2 input hidden
       (map (uniform (neg (xavier_bound (input + hidden))) (xavier_bound (input + hidden)))
            (seq 0 (input * hidden))))
    (repeat zero hidden)
    (mkArray2 hidden output
       (map (uniform (neg (xavier_bound (hidden + output))) (xavier_bound (hidden + output)))
            (seq (input * hidden) (hidden * output))))
    (repeat zero output) lr0.
Proof.
  unfold simple_model_new.
  rewrite init_weights_fill by (simpl; rewrite ?repeat_length; done). simpl.
  rewrite init_weights_fill by (simpl; rewrite ?repeat_length; done). done.
Qed.

Lemma simple_model_new_params (zero lr0 : F) (xavier_bound : nat -> F) (input hidden output : nat) :
  model_wf (simple_model_new zero lr0 neg xavier_bound uniform input hidden output) /\
  total_params (simple_model_new zero lr0 neg xavier_bound uniform input hidden output) =
  input * hidden + hidden + hidden * output + output.
Proof.
  rewrite simple_model_new_eq.
  unfold model_wf, a2_wf, total_params, a2_len. cbn [w1 w2 b1 b2 adata nrows ncols].
  by rewrite !length_map, !length_seq, !repeat_length.
Qed.

(** [SimpleModel::new(input, hidden, output)] builds a well-formed model of
    shapes [input x hidden] and [hidden x output]: every weight is
    overwritten by its own draw (row-major, [w1] first, each draw used
    once, in the Xavier range of its layer), both biases are zero, the
    learning rate is [0.01], and it has
    [input * hidden + hidden + hidden * output + output] parameters. *)
Theorem simple_model_new_init (zero lr0 : F) (xavier_bound : nat -> F) (input hidden output : nat) :
  let m := simple_model_new zero lr0 neg xavier_bound uniform input hidden output in
  model_wf m /\
  nrows (w1 m) = input /\ ncols (w1 m) = hidden /\
  nrows (w2 m) = hidden /\ ncols (w2 m) = output /\
  adata (w1 m) = map (uniform (neg (xavier_bound (input + hidden))) (xavier_bound (input + hidden)))
                     (seq 0 (input * hidden)) /\
  adata (w2 m) = map (uniform (neg (xavier_bound (hidden + output))) (xavier_bound (hidden + output)))
                     (seq (input * hidden) (hidden * output)) /\
  b1 m = repeat zero hidden /\ b2 m = repeat zero output /\ learning_rate m = lr0 /\
  length (to_params_vec m) = input * hidden + hidden + hidden * output + output.
Proof.
  intros m. destruct (simple_model_new_params zero lr0 xavier_bound input hidden output) as [Hwf Ht].
  unfold m. rewrite simple_model_new_eq in Hwf, Ht |- *.
  split; [done|]. do 9 (split; [done|]). by rewrite length_to_params_vec.
Qed.

(** The model of every fresh aggregator and node, [build_model()] =
    [SimpleModel::new(10, 64, 1)], has 769 parameters: [GetModelParams] on a
    fresh aggregator returns 769 values, and an [UpdateModel] vector of 769
    entries replaces a node's whole model. *)
Theorem build_model_769_params (zero lr0 : F) (xavier_bound : nat -> F) (N : nat) :
  model_wf (build_model zero lr0 neg xavier_bound uniform) /\
  total_params (build_model zero lr0 neg xavier_bound uniform) = 769 /\
  exists v, get_model_params (server_new (build_model zero lr0 neg xavier_bound uniform) N) = Ok v /\
            length v = 769.
Proof.
  destruct (simple_model_new_params zero lr0 xavier_bound 10 64 1) as [Hwf Ht].
  unfold build_model. split; [done|]. split; [done|].
  eexists. split; [reflexivity|]. cbn [model server_new]. by rewrite length_to_params_vec.
Qed.

Lemma for_range_push (draw : nat -> F) (n : nat) (d : list F) (k : nat) :
  for_range n (fun _ '(d, k) => (d ++ [draw k], S k)) (d, k) = (d ++ map draw (seq k n), k + n).
Proof.
  induction n as [|n IH].
  - by rewrite for_range_O, app_nil_r, Nat.add_0_r.
  - rewrite for_range_S, IH. cbv beta iota. f_equal; [|lia].
    rewrite seq_S, map_app, app_assoc. simpl. by replace (k + n) with (n + k) by lia.
Qed.

Lemma generate_data_eq (one : F) (samples : nat) :
  generate_data one neg uniform samples =
  Done (map (uniform (neg one) one) (seq 0 (10 * samples)),
        map (fun i => f32_add (f32_add (uniform (neg one) one (10 * i))
                                       (uniform (neg one) one (10 * i + 1)))
                              (uniform (neg one) one (10 * i + 2)))
            (seq 0 samples)).
Proof.
  unfold generate_data.
  match goal with |- context [for_range samples ?f ?a] => set (body := f) end.
  set (draw := uniform (neg one) one).
  assert (Hloop : forall n, for_range n body (Done ([], []), 0) =
    (Done (map draw (seq 0 (10 * n)),
           map (fun i => f32_add (f32_add (draw (10 * i)) (draw (10 * i + 1))) (draw (10 * i + 2)))
               (seq 0 n)), 10 * n)).
  { induction n as [|n IH]; [done|].
    rewrite for_range_S, IH. unfold body. cbv beta iota.
    rewrite for_range_push. cbv beta iota. fold draw.
    rewrite (drop_app_length' (map draw (seq 0 (10 * n))))
      by (rewrite length_app, !length_map, !length_seq; lia).
    replace (10 * S n) with (10 * n + 10) by lia.
    rewrite (seq_S n 0), (seq_app (10 * n) 10 0), !map_app.
    assert (Hseq : map draw (seq (10 * n) 10) =
      draw (10 * n) :: draw (10 * n + 1) :: draw (10 * n + 2) :: map draw (seq (10 * n + 3) 7)).
    { by rewrite !Nat.add_succ_r, !Nat.add_0_r. }
    rewrite Nat.add_0_l, Hseq. reflexivity. }
  rewrite Hloop. done.
Qed.

Lemma lookup_map_seq {A} (f : nat -> A) (j n i : nat) :
  i < n -> map f (seq j n) !! i = Some (f (j + i)).
Proof.
  revert j i. induction n as [|n IH]; intros j [|i] Hi; simpl; try lia.
  - by rewrite Nat.add_0_r.
  - rewrite IH by lia. do 2 f_equal. lia.
Qed.

(** [generate_data(samples)] never panics: it returns [10 * samples]
    features, the consecutive draws of [gen_range(-1.0..1.0)], and
    [samples] labels, label [i] being the sum of features [10 i],
    [10 i + 1] and [10 i + 2] of sample [i]. *)
Theorem generate_data_draws (one : F) (samples : nat) :
  exists data labels, generate_data one neg uniform samples = Done (data, labels) /\
    length data = 10 * samples /\ length labels = samples /\
    data = map (uniform (neg one) one) (seq 0 (10 * samples)) /\
    (forall i, i < samples -> exists x0 x1 x2,
       data !! (10 * i) = Some x0 /\ data !! (10 * i + 1) = Some x1 /\
       data !! (10 * i + 2) = Some x2 /\ labels !! i = Some (f32_add (f32_add x0 x1) x2)).
Proof.
  eexists _, _. split; [apply generate_data_eq|].
  rewrite !length_map, !length_seq. split; [done|]. split; [done|]. split; [done|].
  intros i Hi. eexists _, _, _.
  rewrite !lookup_map_seq by lia. split; [done|]. split; [done|]. split; [done|]. done.
Qed.

(** The start-up of a node ([run_node]): a node built by [NodeActor::new]
    trains on [generate_data(samples)], which returns [10 * samples]
    features and [samples] labels.  Its [build_model()] network has [w1]
    with 10 rows and [w2] with 1 column, the widths of the
    [samples x 10] feature matrix and the [samples x 1] label column that
    [Train] hands to [model.train] for 10 epochs.  If training panics the
    handler panics with it; otherwise the node keeps the trained model and
    sends it, flattened, to the aggregator's [/message] as [UpdateModel]. *)
Theorem startup_training_sends_update train forward (zero lr0 one : F) (xavier_bound : nat -> F)
    (saddr naddr : string) (samples : nat) :
  let n := node_actor_new zero lr0 neg xavier_bound uniform saddr naddr in
  exists data labels, generate_data one neg uniform samples = Done (data, labels) /\
    length data = 10 * samples /\ length labels = samples /\
    nmodel n = build_model zero lr0 neg xavier_bound uniform /\
    nrows (w1 (nmodel n)) = 10 /\ ncols (w2 (nmodel n)) = 1 /\
    node_handle train forward n (Train data labels) =
    match train (nmodel n) (mkArray2 samples 10 data) (mkArray2 samples 1 labels) 10 with
    | Panic e => Panic e
    | Done m' =>
        Done (Ok tt, set_nmodel n m',
              [Send (String.append saddr "/message") (UpdateModel (to_params_vec m'))])
    end.
Proof.
  intros n. eexists _, _. split; [apply generate_data_eq|].
  rewrite !length_map, !length_seq. split; [done|]. split; [done|]. split; [done|].
  split; [unfold n, node_actor_new, build_model; cbn [nmodel];
          rewrite simple_model_new_eq; reflexivity|].
  split; [unfold n, node_actor_new, build_model; cbn [nmodel];
          rewrite simple_model_new_eq; reflexivity|].
  rewrite node_train_ok by (rewrite !length_map, !length_seq; lia).
  by rewrite length_map, length_seq.
Qed.

End InitExtras.

(** ** Witnesses for the further properties *)

Lemma registry_append_only_witness :
  server_handle_node_message
    (mkServer ["http://127.0.0.1:8002"] (Some [q 1]) small_model 1 2) (UpdateModel [q 3]) =
  (Ok tt, mkServer ["http://127.0.0.1:8002"; "direct"] None
                   (snd (from_params_vec small_model [q 2])) 0 2,
   [Send "http://127.0.0.1:8002/message" (UpdateModel [q 2])], true) /\
  (exists suffix,
     nodes (mkServer ["http://127.0.0.1:8002"; "direct"] None
                     (snd (from_params_vec small_model [q 2])) 0 2) =
     nodes (mkServer ["http://127.0.0.1:8002"] (Some [q 1]) small_model 1 2) ++ suffix) /\
  (NoDup (nodes (mkServer ["http://127.0.0.1:8002"] (Some [q 1]) small_model 1 2)) ->
   NoDup (nodes (mkServer ["http://127.0.0.1:8002"; "direct"] None
                          (snd (from_params_vec small_model [q 2])) 0 2))).
Proof.
  split; [vm_compute; reflexivity|].
  apply (registry_append_only
           (mkServer ["http://127.0.0.1:8002"] (Some [q 1]) small_model 1 2) (UpdateModel [q 3])
           (Ok tt) (mkServer ["http://127.0.0.1:8002"; "direct"] None
                             (snd (from_params_vec small_model [q 2])) 0 2)
           [Send "http://127.0.0.1:8002/message" (UpdateModel [q 2])] true).
  vm_compute. reflexivity.
Defined.

Lemma round_inv_preserved_witness :
  1 <= total_nodes (mkServer ["http://127.0.0.1:8002"] (Some [q 1]) small_model 1 2) /\
  round_inv (mkServer ["http://127.0.0.1:8002"] (Some [q 1]) small_model 1 2) /\
  server_handle_node_message
    (mkServer ["http://127.0.0.1:8002"] (Some [q 1]) small_model 1 2) (UpdateModel [q 3]) =
  (Ok tt, mkServer ["http://127.0.0.1:8002"; "direct"] None
                   (snd (from_params_vec small_model [q 2])) 0 2,
   [Send "http://127.0.0.1:8002/message" (UpdateModel [q 2])], true) /\
  (round_inv (mkServer ["http://127.0.0.1:8002"; "direct"] None
                       (snd (from_params_vec small_model [q 2])) 0 2) /\
   total_nodes (mkServer ["http://127.0.0.1:8002"; "direct"] None
                         (snd (from_params_vec small_model [q 2])) 0 2) =
   total_nodes (mkServer ["http://127.0.0.1:8002"] (Some [q 1]) small_model 1 2)).
Proof.
  split; [simpl; lia|].
  split; [unfold round_inv; simpl; split; [lia|split; intros H; discriminate H]|].
  split; [vm_compute; reflexivity|].
  apply (round_inv_preserved
           (mkServer ["http://127.0.0.1:8002"] (Some [q 1]) small_model 1 2) (UpdateModel [q 3])
           (Ok tt) (mkServer ["http://127.0.0.1:8002"; "direct"] None
                             (snd (from_params_vec small_model [q 2])) 0 2)
           [Send "http://127.0.0.1:8002/message" (UpdateModel [q 2])] true).
  - simpl. lia.
  - unfold round_inv. simpl. split; [lia|split; intros H; discriminate H].
  - vm_compute. reflexivity.
Defined.

Lemma global_model_shape_invariant_witness :
  model_wf (model (mkServer ["http://127.0.0.1:8002"] (Some [q 1]) small_model 1 2)) /\
  server_handle_node_message
    (mkServer ["http://127.0.0.1:8002"] (Some [q 1]) small_model 1 2) (UpdateModel [q 3]) =
  (Ok tt, mkServer ["http://127.0.0.1:8002"; "direct"] None
                   (snd (from_params_vec small_model [q 2])) 0 2,
   [Send "http://127.0.0.1:8002/message" (UpdateModel [q 2])], true) /\
  (model_wf (snd (from_params_vec small_model [q 2])) /\
   same_shape small_model (snd (from_params_vec small_model [q 2])) /\
   learning_rate (snd (from_params_vec small_model [q 2])) = learning_rate small_model /\
   exists v v',
     get_model_params (mkServer ["http://127.0.0.1:8002"] (Some [q 1]) small_model 1 2) = Ok v /\
     get_model_params (mkServer ["http://127.0.0.1:8002"; "direct"] None
                                (snd (from_params_vec small_model [q 2])) 0 2) = Ok v' /\
     length v' = length v).
Proof.
  split; [split; reflexivity|].
  split; [vm_compute; reflexivity|].
  apply (global_model_shape_invariant
           (mkServer ["http://127.0.0.1:8002"] (Some [q 1]) small_model 1 2) (UpdateModel [q 3])
           (Ok tt) (mkServer ["http://127.0.0.1:8002"; "direct"] None
                             (snd (from_params_vec small_model [q 2])) 0 2)
           [Send "http://127.0.0.1:8002/message" (UpdateModel [q 2])] true).
  - split; reflexivity.
  - vm_compute. reflexivity.
Defined.

Lemma closure_then_get_model_params_witness :
  model_wf (model (mkServer ["http://127.0.0.1:8002"] (Some [q 4; q 6; q 8; q 10; q 12])
                            small_model 2 2)) /\
  aggregated_params (mkServer ["http://127.0.0.1:8002"] (Some [q 4; q 6; q 8; q 10; q 12])
                              small_model 2 2) = Some [q 4; q 6; q 8; q 10; q 12] /\
  length [q 4; q 6; q 8; q 10; q 12] =
    total_params (model (mkServer ["http://127.0.0.1:8002"] (Some [q 4; q 6; q 8; q 10; q 12])
                                  small_model 2 2)) /\
  map (fun x => f32_div x (f32_of_usize 2)) [q 4; q 6; q 8; q 10; q 12] = [q 2; q 3; q 4; q 5; q 6] /\
  (exists s' effs,
     aggregate_and_broadcast (mkServer ["http://127.0.0.1:8002"] (Some [q 4; q 6; q 8; q 10; q 12])
                                       small_model 2 2) = (Ok tt, s', effs) /\
     get_model_params s' =
       Ok (map (fun x => f32_div x (f32_of_usize
                 (total_nodes (mkServer ["http://127.0.0.1:8002"] (Some [q 4; q 6; q 8; q 10; q 12])
                                        small_model 2 2))))
               [q 4; q 6; q 8; q 10; q 12])).
Proof.
  split; [split; reflexivity|]. split; [reflexivity|]. split; [reflexivity|].
  split; [vm_compute; reflexivity|].
  apply (closure_then_get_model_params
           (mkServer ["http://127.0.0.1:8002"] (Some [q 4; q 6; q 8; q 10; q 12]) small_model 2 2)
           [q 4; q 6; q 8; q 10; q 12]); [split; reflexivity|reflexivity|reflexivity].
Defined.

Lemma closure_sends_once_per_target_witness :
  aggregated_params (mkServer ["http://127.0.0.1:8002"; "ping"; "direct"; "http://127.0.0.1:8003"]
                              (Some [q 2]) small_model 1 2) = Some [q 2] /\
  NoDup (nodes (mkServer ["http://127.0.0.1:8002"; "ping"; "direct"; "http://127.0.0.1:8003"]
                         (Some [q 2]) small_model 1 2)) /\
  snd (aggregate_and_broadcast
         (mkServer ["http://127.0.0.1:8002"; "ping"; "direct"; "http://127.0.0.1:8003"]
                   (Some [q 2]) small_model 1 2)) =
    [Send "http://127.0.0.1:8002/message" (UpdateModel [q 1]);
     Send "http://127.0.0.1:8003/message" (UpdateModel [q 1])] /\
  (let avg := map (fun x => f32_div x (f32_of_usize
                (total_nodes (mkServer ["http://127.0.0.1:8002"; "ping"; "direct"; "http://127.0.0.1:8003"]
                                       (Some [q 2]) small_model 1 2)))) [q 2] in
   let effs := snd (aggregate_and_broadcast
                 (mkServer ["http://127.0.0.1:8002"; "ping"; "direct"; "http://127.0.0.1:8003"]
                           (Some [q 2]) small_model 1 2)) in
   NoDup effs /\
   (forall n, In n (nodes (mkServer ["http://127.0.0.1:8002"; "ping"; "direct"; "http://127.0.0.1:8003"]
                                    (Some [q 2]) small_model 1 2)) ->
      is_broadcast_target n = true ->
      In (Send (String.append n "/message") (UpdateModel avg)) effs) /\
   (forall url m, In (Send url m) effs -> m = UpdateModel avg /\
      exists n, In n (nodes (mkServer ["http://127.0.0.1:8002"; "ping"; "direct"; "http://127.0.0.1:8003"]
                                      (Some [q 2]) small_model 1 2)) /\
        is_broadcast_target n = true /\ url = String.append n "/message")).
Proof.
  split; [reflexivity|]. split; [apply (bool_decide_unpack _); vm_compute; exact I|].
  split; [vm_compute; reflexivity|].
  apply (closure_sends_once_per_target
           (mkServer ["http://127.0.0.1:8002"; "ping"; "direct"; "http://127.0.0.1:8003"]
                     (Some [q 2]) small_model 1 2) [q 2]); [reflexivity|apply (bool_decide_unpack _); vm_compute; exact I].
Defined.

Lemma empty_round_changes_nothing_witness :
  aggregated_params (mkServer ["http://127.0.0.1:8002"] (Some []) small_model 1 2) = Some [] /\
  model_wf (model (mkServer ["http://127.0.0.1:8002"] (Some []) small_model 1 2)) /\
  (aggregated_params (accumulate (mkServer ["http://127.0.0.1:8002"] (Some []) small_model 1 2)
                                 (mkServerMessage "http://127.0.0.1:8003" [q 7])) = Some [] /\
   aggregate_and_broadcast (mkServer ["http://127.0.0.1:8002"] (Some []) small_model 1 2) =
   (Ok tt, mkServer ["http://127.0.0.1:8002"] (Some []) small_model 1 2,
    broadcast ["http://127.0.0.1:8002"] (UpdateModel []))).
Proof.
  split; [reflexivity|]. split; [split; reflexivity|].
  apply (empty_round_changes_nothing
           (mkServer ["http://127.0.0.1:8002"] (Some []) small_model 1 2)
           (mkServerMessage "http://127.0.0.1:8003" [q 7])); [reflexivity|split; reflexivity].
Defined.

Lemma round_result_averages_updates_witness :
  1 <= total_nodes (server_new small_model 2) /\
  aggregated_params (server_new small_model 2) = None /\
  updates_received (server_new small_model 2) = 0 /\
  length [mkServerMessage "http://127.0.0.1:8002" [q 1; q 2];
          mkServerMessage "http://127.0.0.1:8003" [q 3; q 4]] = total_nodes (server_new small_model 2) /\
  averaged (server_new small_model 2)
    (round_sum (map params [mkServerMessage "http://127.0.0.1:8002" [q 1; q 2];
                            mkServerMessage "http://127.0.0.1:8003" [q 3; q 4]])) = [q 2; q 3] /\
  run_updates (server_new small_model 2)
    [mkServerMessage "http://127.0.0.1:8002" [q 1; q 2];
     mkServerMessage "http://127.0.0.1:8003" [q 3; q 4]] =
  (repeat false (length [mkServerMessage "http://127.0.0.1:8002" [q 1; q 2];
                         mkServerMessage "http://127.0.0.1:8003" [q 3; q 4]] - 1) ++ [true],
   mkServer (foldl register (nodes (server_new small_model 2))
                   (map node_addr [mkServerMessage "http://127.0.0.1:8002" [q 1; q 2];
                                   mkServerMessage "http://127.0.0.1:8003" [q 3; q 4]])) None
     (snd (from_params_vec (model (server_new small_model 2))
             (averaged (server_new small_model 2)
                (round_sum (map params [mkServerMessage "http://127.0.0.1:8002" [q 1; q 2];
                                        mkServerMessage "http://127.0.0.1:8003" [q 3; q 4]])))))
     0 (total_nodes (server_new small_model 2))).
Proof.
  split; [simpl; lia|]. split; [reflexivity|]. split; [reflexivity|]. split; [reflexivity|].
  split; [vm_compute; reflexivity|].
  apply (round_result_averages_updates (server_new small_model 2)
           [mkServerMessage "http://127.0.0.1:8002" [q 1; q 2];
            mkServerMessage "http://127.0.0.1:8003" [q 3; q 4]]);
    [simpl; lia|reflexivity|reflexivity|reflexivity].
Defined.

Lemma train_success_sends_params_witness :
  length (repeat (q 0) 10) = 10 * length [q 1] /\
  (forall e, dot_checked_train (nmodel (mkNode model10 "http://127.0.0.1:5000" "http://127.0.0.1:8002"))
               (mkArray2 (length [q 1]) 10 (repeat (q 0) 10)) (mkArray2 (length [q 1]) 1 [q 1]) 10
             = Panic e ->
     node_handle dot_checked_train dot_checked_forward (mkNode model10 "http://127.0.0.1:5000" "http://127.0.0.1:8002")
       (Train (repeat (q 0) 10) [q 1]) = Panic e) /\
  (forall m', dot_checked_train (nmodel (mkNode model10 "http://127.0.0.1:5000" "http://127.0.0.1:8002"))
                (mkArray2 (length [q 1]) 10 (repeat (q 0) 10)) (mkArray2 (length [q 1]) 1 [q 1]) 10
              = Done m' ->
     node_handle dot_checked_train dot_checked_forward (mkNode model10 "http://127.0.0.1:5000" "http://127.0.0.1:8002")
       (Train (repeat (q 0) 10) [q 1]) =
     Done (Ok tt, set_nmodel (mkNode model10 "http://127.0.0.1:5000" "http://127.0.0.1:8002") m',
           [Send (String.append (server_addr (mkNode model10 "http://127.0.0.1:5000" "http://127.0.0.1:8002")) "/message") (UpdateModel (to_params_vec m'))])).
Proof.
  split; [reflexivity|].
  apply (train_success_sends_params dot_checked_train dot_checked_forward
           (mkNode model10 "http://127.0.0.1:5000" "http://127.0.0.1:8002")
           (repeat (q 0) 10) [q 1]).
  reflexivity.
Defined.

Lemma node_update_model_loads_witness :
  model_wf (nmodel (mkNode small_model "http://127.0.0.1:5000" "http://127.0.0.1:8002")) /\
  exists m', node_handle dot_checked_train dot_checked_forward
               (mkNode small_model "http://127.0.0.1:5000" "http://127.0.0.1:8002")
               (UpdateModel [q 9; q 8]) =
             Done (Ok tt, set_nmodel (mkNode small_model "http://127.0.0.1:5000" "http://127.0.0.1:8002") m', []) /\
    model_wf m' /\ same_shape small_model m' /\ learning_rate m' = learning_rate small_model /\
    (forall k, k < total_params small_model ->
       to_params_vec m' !! k =
       if decide (k < length [q 9; q 8]) then [q 9; q 8] !! k else to_params_vec small_model !! k) /\
    (length [q 9; q 8] = total_params small_model -> to_params_vec m' = [q 9; q 8]).
Proof.
  split; [split; reflexivity|].
  apply (node_update_model_loads dot_checked_train dot_checked_forward
           (mkNode small_model "http://127.0.0.1:5000" "http://127.0.0.1:8002") [q 9; q 8]).
  split; reflexivity.
Defined.

